(** * Retrieving-Stock-data: indicator computation and chart-layer assembly

    A shallow embedding of [src/app.py] (class [StockApp]): the indicator
    functions [calculate_rsi] and [calculate_bbands], the selectors [get_mav]
    and [get_indicators], and the control flow of [plot_data] and [load_data].

    Numbers.  A pandas cell is a float.  It is embedded as a value of [fval]:
    the not-a-number marker [NaN] (pandas' missing value), the two infinities,
    or a finite number carried as an exact rational.  Finite arithmetic is
    exact (rounding is not part of the model) and the two zeros of the float
    format are one value; division by zero, the infinities and [NaN] follow
    the float rules, which is what decides where an indicator is defined. *)

From Stdlib Require Import String.
From Stdlib Require Import List Bool Arith Lia ZArith QArith Qround Lqa.
Import ListNotations.

Set Implicit Arguments.

Open Scope string_scope.
Open Scope list_scope.
Open Scope Q_scope.

(** ** Float cells *)

Inductive fval : Type :=
| NaN
| PInf
| NInf
| Fin (q : Q).

Definition is_nan (v : fval) : bool :=
  match v with NaN => true | _ => false end.

Definition is_finite (v : fval) : bool :=
  match v with Fin _ => true | _ => false end.

(** Sign of a rational as a three-way comparison with zero. *)
Definition Qsign (q : Q) : comparison := q ?= 0.

Definition fneg (v : fval) : fval :=
  match v with
  | NaN => NaN
  | PInf => NInf
  | NInf => PInf
  | Fin q => Fin (- q)
  end.

Definition fadd (a b : fval) : fval :=
  match a, b with
  | NaN, _ | _, NaN => NaN
  | PInf, NInf | NInf, PInf => NaN
  | PInf, _ | _, PInf => PInf
  | NInf, _ | _, NInf => NInf
  | Fin x, Fin y => Fin (x + y)
  end.

Definition fsub (a b : fval) : fval := fadd a (fneg b).

(** An infinity of the sign of [c], for [c] the sign of a nonzero factor. *)
Definition inf_of_sign (c : comparison) : fval :=
  match c with
  | Gt => PInf
  | Lt => NInf
  | Eq => NaN
  end.

Definition fmul (a b : fval) : fval :=
  match a, b with
  | NaN, _ | _, NaN => NaN
  | PInf, PInf | NInf, NInf => PInf
  | PInf, NInf | NInf, PInf => NInf
  | PInf, Fin y | Fin y, PInf => inf_of_sign (Qsign y)
  | NInf, Fin y | Fin y, NInf => inf_of_sign (CompOpp (Qsign y))
  | Fin x, Fin y => Fin (x * y)
  end.

(** Float division: [0/0] and [inf/inf] are [NaN], a nonzero number over zero
    is an infinity of the sign of the numerator, a number over an infinity is
    zero.  (Over a negative zero the float result is the infinity of the
    other sign; [rsi_of_rs] below sends both infinities to the same cell.) *)
Definition fdiv (a b : fval) : fval :=
  match a, b with
  | NaN, _ | _, NaN => NaN
  | PInf, Fin y =>
      match Qsign y with Lt => NInf | _ => PInf end
  | NInf, Fin y =>
      match Qsign y with Lt => PInf | _ => NInf end
  | PInf, _ | NInf, _ => NaN
  | Fin _, PInf | Fin _, NInf => Fin 0
  | Fin x, Fin y =>
      match Qsign y with
      | Eq => inf_of_sign (Qsign x)
      | _ => Fin (x / y)
      end
  end.

(** Comparisons of a cell with a scalar; any comparison with [NaN] is false. *)
Definition fgt0 (v : fval) : bool :=
  match v with
  | NaN | NInf => false
  | PInf => true
  | Fin q => match Qsign q with Gt => true | _ => false end
  end.

Definition flt0 (v : fval) : bool :=
  match v with
  | NaN | PInf => false
  | NInf => true
  | Fin q => match Qsign q with Lt => true | _ => false end
  end.

(** [is_value v q]: the cell holds the finite number [q]. *)
Definition is_value (v : fval) (q : Q) : Prop :=
  match v with
  | Fin x => x == q
  | _ => False
  end.

Definition of_nat (n : nat) : fval := Fin (inject_Z (Z.of_nat n)).

(** ** Series *)

Definition Series : Type := list fval.

(** A column of finite prices. *)
Definition prices (cs : list Q) : Series := map Fin cs.

(** Cell at position [i]; positions outside the series read as [NaN]. *)
Definition cell (s : Series) (i : nat) : fval := nth i s NaN.

(** Element-wise operation of two series over the same index. *)
Definition zip_with (f : fval -> fval -> fval) (a b : Series) : Series :=
  map (fun p => f (fst p) (snd p)) (combine a b).

(** [Series.diff(1)]: difference with the previous cell, [NaN] at the first. *)
Fixpoint diff_from (prev : fval) (s : Series) : Series :=
  match s with
  | [] => []
  | x :: t => fsub x prev :: diff_from x t
  end.

Definition diff (s : Series) : Series :=
  match s with
  | [] => []
  | x :: t => NaN :: diff_from x t
  end.

(** [Series.where(cond, other)]: keep the cell where the condition holds,
    put [other] elsewhere. *)
Definition where_ (s : Series) (cond : fval -> bool) (other : fval) : Series :=
  map (fun v => if cond v then v else other) s.

Definition series_neg (s : Series) : Series := map fneg s.

(** ** Exceptions *)

Inductive exn : Type :=
| ValueError (msg : string)
| OtherError (cls msg : string).

Inductive result (A : Type) : Type :=
| Ok (a : A)
| Raise (e : exn).

Arguments Ok {A} a.
Arguments Raise {A} e.

Definition rbind {A B : Type} (m : result A) (k : A -> result B) : result B :=
  match m with
  | Ok a => k a
  | Raise e => Raise e
  end.

Notation "'let?' x ':=' m 'in' k" := (rbind m (fun x => k))
  (at level 10, x name, m at level 100, k at level 200).

(** ** Rolling windows

    [s.rolling(window, min_periods)] builds a window object from two
    integers.  pandas validates them in this order, each failure a
    [ValueError]: a negative [min_periods]; a [min_periods] above [window]
    (the message also quotes the two numbers); a negative [window].  Without
    [min_periods], a fixed window asks for [window] observations.  The
    window object keeps the two validated numbers as counts of cells. *)

Record Rolling : Type := mkRolling {
  r_obj : Series;
  r_window : nat;
  r_min_periods : nat
}.

Definition validate_min_periods (window : Z) (min_periods : option Z)
  : result unit :=
  match min_periods with
  | None => Ok tt
  | Some m =>
      if (m <? 0)%Z then Raise (ValueError "min_periods must be >= 0")
      else if (window <? m)%Z
      then Raise (ValueError "min_periods must be <= window")
      else Ok tt
  end.

Definition rolling (s : Series) (window : Z) (min_periods : option Z)
  : result Rolling :=
  let? _ := validate_min_periods window min_periods in
  if (window <? 0)%Z
  then Raise (ValueError "window must be an integer 0 or greater")
  else
    let minp := match min_periods with Some m => m | None => window end in
    Ok (mkRolling s (Z.to_nat window) (Z.to_nat minp)).

(** The cells of the window that ends at position [i]: the last [w] cells of
    the first [i+1]. *)
Definition window_at (w i : nat) (s : Series) : Series :=
  skipn (S i - w) (firstn (S i) s).

(** The observations of a window are its finite cells: a rolling aggregate
    skips [NaN], and pandas turns the infinite cells of the values into
    [NaN] before it aggregates. *)
Definition observations (win : Series) : Series := filter is_finite win.

Definition fsum (l : Series) : fval := fold_right fadd (Fin 0) l.

Definition agg_mean (minp : nat) (win : Series) : fval :=
  let obs := observations win in
  let nobs := length obs in
  if ((minp <=? nobs) && (0 <? nobs))%nat
  then fdiv (fsum obs) (of_nat nobs)
  else NaN.

(** Sample variance with [ddof] delta degrees of freedom. *)
Definition agg_var (minp ddof : nat) (win : Series) : fval :=
  let obs := observations win in
  let nobs := length obs in
  if ((minp <=? nobs) && (ddof <? nobs))%nat
  then
    let m := fdiv (fsum obs) (of_nat nobs) in
    let dev2 := map (fun x => fmul (fsub x m) (fsub x m)) obs in
    fdiv (fsum dev2) (of_nat (nobs - ddof))
  else NaN.

Definition roll (agg : Series -> fval) (r : Rolling) : Series :=
  map (fun i => agg (window_at (r_window r) i (r_obj r)))
      (seq 0 (length (r_obj r))).

(** [Rolling.mean()] *)
Definition mean (r : Rolling) : Series := roll (agg_mean (r_min_periods r)) r.

Section Sqrt.

(** The square root on finite numbers is a parameter of the model: rationals
    have no exact one.  What the proofs use of it is stated where used. *)
Variable sqrtQ : Q -> Q.

(** pandas takes the root of the variance with negative inputs sent to zero. *)
Definition fsqrt (v : fval) : fval :=
  match v with
  | NaN => NaN
  | PInf => PInf
  | NInf => Fin 0
  | Fin q => match Qsign q with Lt => Fin 0 | _ => Fin (sqrtQ q) end
  end.

(** [Rolling.std()]: sample standard deviation ([ddof = 1]). *)
Definition std (r : Rolling) : Series :=
  map fsqrt (roll (agg_var (r_min_periods r) 1) r).

End Sqrt.

(** ** The data frame *)

Record Row : Type := mkRow {
  Open : fval;
  High : fval;
  Low : fval;
  Close : fval;
  Volume : fval
}.

Definition DataFrame : Type := list Row.

(** [data['Close']] *)
Definition col_Close (data : DataFrame) : Series := map Close data.

(** [data.empty] *)
Definition empty (data : DataFrame) : bool :=
  match data with [] => true | _ => false end.

(** ** calculate_rsi *)

Definition rsi_delta (series : Series) : Series := diff series.

Definition rsi_gain (series : Series) : Series :=
  where_ (rsi_delta series) fgt0 (Fin 0).

Definition rsi_loss (series : Series) : Series :=
  series_neg (where_ (rsi_delta series) flt0 (Fin 0)).

Definition rsi_avg_gain (series : Series) (period : Z) : result Series :=
  let? r := rolling (rsi_gain series) period (Some 1%Z) in Ok (mean r).

Definition rsi_avg_loss (series : Series) (period : Z) : result Series :=
  let? r := rolling (rsi_loss series) period (Some 1%Z) in Ok (mean r).

(** [100 - (100 / (1 + rs))] on one cell. *)
Definition rsi_of_rs (rs : fval) : fval :=
  fsub (Fin 100) (fdiv (Fin 100) (fadd (Fin 1) rs)).

Definition calculate_rsi (series : Series) (period : Z) : result Series :=
  let? avg_gain := rsi_avg_gain series period in
  let? avg_loss := rsi_avg_loss series period in
  let rs := zip_with fdiv avg_gain avg_loss in
  Ok (map rsi_of_rs rs).

(** The default of the [period] argument. *)
Definition default_period : Z := 14.

(** ** calculate_bbands *)

Record BBands : Type := mkBBands {
  Upper : Series;
  Lower : Series
}.

Section Bands.

Variable sqrtQ : Q -> Q.

Definition calculate_bbands (data : DataFrame) (window : Z) (no_of_std : Q)
  : result BBands :=
  let? rm := rolling (col_Close data) window None in
  let rolling_mean := mean rm in
  let? rs := rolling (col_Close data) window None in
  let rolling_std := std sqrtQ rs in
  let scaled := map (fun v => fmul v (Fin no_of_std)) rolling_std in
  let upper_band := zip_with fadd rolling_mean scaled in
  let lower_band := zip_with fsub rolling_mean scaled in
  Ok (mkBBands upper_band lower_band).

End Bands.

Definition default_window : Z := 20.
Definition default_no_of_std : Q := 2.

(** ** The application object

    The variables of [StockApp.__init__] that the methods below read. *)

Record StockApp : Type := mkStockApp {
  symbol_var : string;
  interval_var : string;
  show_volume : bool;
  show_rsi : bool;
  show_bbands : bool;
  show_ma5 : bool;
  show_ma20 : bool;
  show_ma60 : bool;
  show_ma200 : bool
}.

(** ** get_mav *)

Definition append_if (b : bool) (n : nat) (l : list nat) : list nat :=
  if b then l ++ [n] else l.

(** [mav_values if mav_values else None]: an empty list is false. *)
Definition get_mav (self : StockApp) : option (list nat) :=
  let mav_values := [] in
  let mav_values := append_if (show_ma5 self) 5 mav_values in
  let mav_values := append_if (show_ma20 self) 20 mav_values in
  let mav_values := append_if (show_ma60 self) 60 mav_values in
  let mav_values := append_if (show_ma200 self) 200 mav_values in
  match mav_values with
  | [] => None
  | _ :: _ => Some mav_values
  end.

(** ** Overlay descriptors

    [mpf.make_addplot(data, panel=, color=, ylabel=)].  A panel is named by a
    number or by a string; the library's default for [panel] is panel 0, the
    main (price) panel. *)

Inductive panel : Type :=
| PanelId (n : nat)
| PanelName (name : string).

Record addplot : Type := mkAddplot {
  ap_data : Series;
  ap_panel : panel;
  ap_color : string;
  ap_ylabel : option string
}.

Definition make_addplot (data : Series) (panel : option panel)
  (color : string) (ylabel : option string) : addplot :=
  mkAddplot data
            (match panel with Some p => p | None => PanelId 0 end)
            color ylabel.

Record plot_params : Type := mkPlotParams {
  pp_data : DataFrame;
  pp_type : string;
  pp_style : string;
  pp_volume : bool;
  pp_addplot : list addplot;
  pp_returnfig : bool;
  pp_figsize : nat * nat;
  pp_mav : option (list nat)
}.

(** ** Effects

    What a method does besides computing is kept in a log, in the order it
    happens: dialogs, the canvas, the call of the renderer, and the entry
    into an indicator function.  The renderer and the data source are outside
    the program: each is a parameter that returns or raises. *)

Inductive event : Type :=
| ShowWarning (title msg : string)
| ShowError (title msg : string)
| ClearCanvas
| Enter (method : string)
| MpfPlot (p : plot_params)
| DrawCanvas.

Definition M (A : Type) : Type := list event -> result A * list event.

Definition ret {A : Type} (a : A) : M A := fun log => (Ok a, log).

Definition bind {A B : Type} (m : M A) (k : A -> M B) : M B :=
  fun log =>
    match m log with
    | (Ok a, log') => k a log'
    | (Raise e, log') => (Raise e, log')
    end.

Definition emit (e : event) : M unit := fun log => (Ok tt, log ++ [e]).

Definition raise {A : Type} (e : exn) : M A := fun log => (Raise e, log).

Definition lift {A : Type} (r : result A) : M A := fun log => (r, log).

(** [try: body except Exception as e: handler e] *)
Definition try_except {A : Type} (body : M A) (handler : exn -> M A) : M A :=
  fun log =>
    match body log with
    | (Ok a, log') => (Ok a, log')
    | (Raise e, log') => handler e log'
    end.

Notation "x <- m ;; k" := (bind m (fun x => k))
  (at level 61, m at next level, right associativity).
Notation "m ;;; k" := (bind m (fun _ => k))
  (at level 61, right associativity).

(** The log of a method run from an empty log. *)
Definition effects {A : Type} (m : M A) : list event := snd (m []).

(** [str(e)] *)
Definition str (e : exn) : string :=
  match e with
  | ValueError msg => msg
  | OtherError _ msg => msg
  end.

Section App.

Variable sqrtQ : Q -> Q.

(** [yf.Ticker(symbol).history(period='1y', interval=interval)] *)
Variable history : string -> string -> result DataFrame.

(** [mpf.plot] called with the entries of [plot_params]: it returns the
    figure or raises (it does on an overlay that has no number at all, for
    one). *)
Variable mpf_plot : plot_params -> result unit.

(** ** get_indicators *)

Definition get_indicators (self : StockApp) (data : DataFrame)
  : M (list addplot) :=
  let addplots := [] in
  addplots <-
    (if show_rsi self then
       emit (Enter "calculate_rsi") ;;;
       rsi <- lift (calculate_rsi (col_Close data) default_period) ;;
       ret (addplots ++
              [make_addplot rsi (Some (PanelName "lower")) "blue" (Some "RSI")])
     else ret addplots) ;;
  addplots <-
    (if show_bbands self then
       emit (Enter "calculate_bbands") ;;;
       bbands <- lift (calculate_bbands sqrtQ data default_window
                                        default_no_of_std) ;;
       ret (addplots ++
              [make_addplot (Upper bbands) None "red" None;
               make_addplot (Lower bbands) None "red" None])
     else ret addplots) ;;
  ret addplots.

(** ** plot_data *)

Definition plot_data (self : StockApp) (data : DataFrame) : M unit :=
  emit ClearCanvas ;;;
  let mav_values := get_mav self in
  addplots <- get_indicators self data ;;
  let params :=
    mkPlotParams data "candle" "charles" (show_volume self) addplots true
                 (10, 6)%nat
                 (match mav_values with
                  | Some (_ :: _) => mav_values
                  | _ => None
                  end) in
  emit (MpfPlot params) ;;;
  lift (mpf_plot params) ;;;
  emit DrawCanvas.

(** ** load_data *)

(** The body of the [try] block. *)
Definition load_data_try (self : StockApp) : M unit :=
  data <- lift (history (symbol_var self) (interval_var self)) ;;
  if empty data
  then raise (ValueError "No data found for this symbol.")
  else plot_data self data.

Definition load_data (self : StockApp) : M unit :=
  let symbol := symbol_var self in
  if (symbol =? "")%string then
    emit (ShowWarning "Input Error" "Please enter a stock symbol.")
  else
    try_except (load_data_try self)
               (fun e => emit (ShowError "Error" (str e))).

End App.

(** * Vocabulary of the statements *)

(** Kinds of cells. *)
Definition finite (v : fval) : Prop :=
  match v with Fin _ => True | _ => False end.

Definition fin_nonneg (v : fval) : Prop :=
  match v with Fin q => 0 <= q | _ => False end.

Definition nan_or_finite (v : fval) : Prop :=
  match v with NaN | Fin _ => True | _ => False end.

(** The number in a finite cell. *)
Definition qval (v : fval) : Q :=
  match v with Fin q => q | _ => 0 end.

Definition Qsum (l : list Q) : Q := fold_right Qplus 0 l.

(** The sum of the numbers in a window. *)
Definition window_sum (win : Series) : Q := Qsum (map qval win).

(** The window object of [data['Close'].rolling(window)] at the default. *)
Definition close_rolling (data : DataFrame) : Rolling :=
  mkRolling (col_Close data) (Z.to_nat default_window)
            (Z.to_nat default_window).

(** The windows of the enabled toggles, scanned in the order 5, 20, 60, 200. *)
Definition enabled_windows (self : StockApp) : list nat :=
  map snd
      (filter fst
              [(show_ma5 self, 5%nat); (show_ma20 self, 20%nat);
               (show_ma60 self, 60%nat); (show_ma200 self, 200%nat)]).

Definition any_ma (self : StockApp) : bool :=
  show_ma5 self || show_ma20 self || show_ma60 self || show_ma200 self.

Definition no_data_error : exn := ValueError "No data found for this symbol.".

(** ** Sample data *)

(** A square root on rationals to run the bands with: six decimals, rounded
    down. *)
Definition isqrtQ (q : Q) : Q :=
  Z.sqrt (Qfloor (q * 1000000000000)) # 1000000.

(** A frame whose four prices of a row are the close. *)
Definition frame_of (cs : list Q) : DataFrame :=
  map (fun c => mkRow (Fin c) (Fin c) (Fin c) (Fin c) (Fin 0)) cs.

(** The closes 1, 2, ..., 30. *)
Definition closes_1_to_30 : list Q :=
  map (fun n => inject_Z (Z.of_nat n)) (seq 1 30).

Definition frame_1_to_30 : DataFrame := frame_of closes_1_to_30.

Definition twenty_closes : list Q :=
  [2; 4; 4; 4; 5; 5; 7; 9; 2; 4; 4; 4; 5; 5; 7; 9; 5; 5; 5; 5].

Definition twenty_bands : BBands :=
  Eval vm_compute in
    match calculate_bbands isqrtQ (frame_of twenty_closes) default_window
                           default_no_of_std with
    | Ok b => b
    | Raise _ => mkBBands [] []
    end.

Definition twenty_upper : Q :=
  Eval vm_compute in qval (cell (Upper twenty_bands) 19).

Definition twenty_lower : Q :=
  Eval vm_compute in qval (cell (Lower twenty_bands) 19).

(** The toggles of the moving-average example: MA(20), MA(5) and MA(200) on,
    MA(60) off. *)
Definition app_ma_example : StockApp :=
  mkStockApp "AAPL" "1d" true false false true true false true.

(** ** More vocabulary *)

(** A cell that is a number or missing (no infinity). *)
Definition is_nan_or_finite (v : fval) : bool :=
  match v with NaN | Fin _ => true | PInf | NInf => false end.

Definition same_sign (a b : comparison) : bool :=
  match a, b with
  | Eq, Eq | Lt, Lt | Gt, Gt => true
  | _, _ => false
  end.

(** Every step from one close to the next has the sign [dir]. *)
Fixpoint trend_from (dir : comparison) (prev : Q) (l : list Q) : bool :=
  match l with
  | [] => true
  | x :: t => same_sign (Qsign (x - prev)) dir && trend_from dir x t
  end.

Definition trend (dir : comparison) (cs : list Q) : bool :=
  match cs with
  | [] => true
  | c :: t => trend_from dir c t
  end.

Definition fin_sign (dir : comparison) (v : fval) : Prop :=
  match v with Fin q => Qsign q = dir | _ => False end.

Definition fin_pos (v : fval) : Prop :=
  match v with Fin q => 0 < q | _ => False end.

Definition fin_zero (v : fval) : Prop := is_value v 0.

(** What a step of sign [dir] puts in the gain and in the loss series. *)
Definition gain_like (dir : comparison) (v : fval) : Prop :=
  match dir with Gt => fin_pos v | _ => fin_zero v end.

Definition loss_like (dir : comparison) (v : fval) : Prop :=
  match dir with Lt => fin_pos v | _ => fin_zero v end.

(** The squared deviation of a cell from the mean [m]. *)
Definition dev2_cell (m : Q) (x : fval) : fval :=
  fmul (fsub x (Fin m)) (fsub x (Fin m)).

(** The descriptor is sent to the panel named lower. *)
Definition on_lower (a : addplot) : bool :=
  match ap_panel a with
  | PanelName name => (name =? "lower")%string
  | PanelId _ => false
  end.

(** The event is a call of the renderer. *)
Definition is_plot (e : event) : bool :=
  match e with MpfPlot _ => true | _ => false end.

(** The indicator functions entered for the toggles of [self]. *)
Definition entered (self : StockApp) : list event :=
  (if show_rsi self then [Enter "calculate_rsi"] else [])
  ++ (if show_bbands self then [Enter "calculate_bbands"] else []).

(** What [plot_data] does once the renderer has returned or raised, [pre]
    being the log up to and with the call: it draws, or lets the exception
    through. *)
Definition after_render (r : result unit) (pre : list event)
  : result unit * list event :=
  match r with
  | Ok _ => (Ok tt, pre ++ [DrawCanvas])
  | Raise e => (Raise e, pre)
  end.

(** The descriptors that [get_indicators] makes of the two indicators. *)
Definition rsi_addplot (rsi : Series) : addplot :=
  mkAddplot rsi (PanelName "lower") "blue" (Some "RSI").

Definition bbands_addplots (bbands : BBands) : list addplot :=
  [mkAddplot (Upper bbands) (PanelId 0) "red" None;
   mkAddplot (Lower bbands) (PanelId 0) "red" None].

(** A frame whose four prices of a row are the given cell. *)
Definition frame_of_cells (s : Series) : DataFrame :=
  map (fun v => mkRow v v v v (Fin 0)) s.

(** Twenty-five rows that close at 5. *)
Definition flat_frame : DataFrame := frame_of (repeat 5 25).

(** * Properties *)

Lemma Ok_inj (A : Type) (a b : A) : Ok a = Ok b -> a = b.
Proof. intros H. injection H as H. exact H. Qed.

(** ** The indicators never raise with their default arguments *)

Lemma calculate_rsi_default_ok (s : Series) :
  exists r, calculate_rsi s default_period = Ok r.
Proof. eexists. reflexivity. Qed.

Lemma calculate_bbands_default_ok (sqrtQ : Q -> Q) (data : DataFrame) :
  exists b,
    calculate_bbands sqrtQ data default_window default_no_of_std = Ok b.
Proof. eexists. reflexivity. Qed.

(** ** Cells of derived series *)

Lemma cell_map_seq (f : nat -> fval) (n i : nat) :
  (i < n)%nat -> cell (map f (seq 0 n)) i = f i.
Proof.
  intros Hi. unfold cell.
  rewrite (nth_indep _ NaN (f 0%nat)) by (rewrite length_map, length_seq; exact Hi).
  rewrite (map_nth f (seq 0 n) 0%nat i), seq_nth by exact Hi. reflexivity.
Qed.

Lemma cell_overflow (s : Series) (i : nat) :
  (length s <= i)%nat -> cell s i = NaN.
Proof. intros H. unfold cell. apply nth_overflow. exact H. Qed.

Lemma length_roll (agg : Series -> fval) (r : Rolling) :
  length (roll agg r) = length (r_obj r).
Proof. unfold roll. rewrite length_map, length_seq. reflexivity. Qed.

Lemma cell_roll (agg : Series -> fval) (r : Rolling) (i : nat) :
  (i < length (r_obj r))%nat ->
  cell (roll agg r) i = agg (window_at (r_window r) i (r_obj r)).
Proof. intros Hi. unfold roll. rewrite cell_map_seq by exact Hi. reflexivity. Qed.

Lemma length_zip_with f (a b : Series) :
  length a = length b -> length (zip_with f a b) = length a.
Proof.
  intros H. unfold zip_with. rewrite length_map, length_combine, <- H.
  apply Nat.min_id.
Qed.

Lemma cell_zip_with f (a b : Series) (i : nat) :
  length a = length b -> (i < length a)%nat ->
  cell (zip_with f a b) i = f (cell a i) (cell b i).
Proof.
  intros Hlen Hi. unfold zip_with, cell.
  rewrite (nth_indep _ NaN ((fun p => f (fst p) (snd p)) (NaN, NaN)))
    by (rewrite length_map, length_combine, <- Hlen, Nat.min_id; exact Hi).
  rewrite (map_nth (fun p => f (fst p) (snd p))).
  rewrite combine_nth by exact Hlen. reflexivity.
Qed.

Lemma cell_map (f : fval -> fval) (s : Series) (i : nat) :
  (i < length s)%nat -> cell (map f s) i = f (cell s i).
Proof.
  intros Hi. unfold cell.
  rewrite (nth_indep _ NaN (f NaN)) by (rewrite length_map; exact Hi).
  apply map_nth.
Qed.

Lemma length_diff_from (p : fval) (s : Series) :
  length (diff_from p s) = length s.
Proof. revert p. induction s as [|x t IH]; intros p; simpl; [|rewrite IH]; reflexivity. Qed.

Lemma length_diff (s : Series) : length (diff s) = length s.
Proof. destruct s; simpl; [|rewrite length_diff_from]; reflexivity. Qed.

Lemma length_rsi_gain (s : Series) : length (rsi_gain s) = length s.
Proof. unfold rsi_gain, where_, rsi_delta. rewrite length_map. apply length_diff. Qed.

Lemma length_rsi_loss (s : Series) : length (rsi_loss s) = length s.
Proof.
  unfold rsi_loss, series_neg, where_, rsi_delta.
  rewrite !length_map. apply length_diff.
Qed.

(** ** The RSI series, cell by cell *)

Lemma rsi_avg_gain_default (s : Series) :
  rsi_avg_gain s default_period
  = Ok (mean (mkRolling (rsi_gain s) (Z.to_nat default_period) 1)).
Proof. reflexivity. Qed.

Lemma rsi_avg_loss_default (s : Series) :
  rsi_avg_loss s default_period
  = Ok (mean (mkRolling (rsi_loss s) (Z.to_nat default_period) 1)).
Proof. reflexivity. Qed.

Lemma calculate_rsi_cells (s r ag al : Series) :
  calculate_rsi s default_period = Ok r ->
  rsi_avg_gain s default_period = Ok ag ->
  rsi_avg_loss s default_period = Ok al ->
  length r = length s /\ length ag = length s /\ length al = length s
  /\ forall i, (i < length s)%nat ->
       cell r i = rsi_of_rs (fdiv (cell ag i) (cell al i))
       /\ cell ag i = agg_mean 1 (window_at (Z.to_nat default_period) i (rsi_gain s))
       /\ cell al i = agg_mean 1 (window_at (Z.to_nat default_period) i (rsi_loss s)).
Proof.
  unfold calculate_rsi.
  rewrite rsi_avg_gain_default, rsi_avg_loss_default. cbn [rbind].
  intros Hr Hag Hal.
  apply Ok_inj in Hr, Hag, Hal. destruct Hr, Hag, Hal.
  assert (Lg : length (mean (mkRolling (rsi_gain s) (Z.to_nat default_period) 1)) = length s)
    by (unfold mean; rewrite length_roll; apply length_rsi_gain).
  assert (Ll : length (mean (mkRolling (rsi_loss s) (Z.to_nat default_period) 1)) = length s)
    by (unfold mean; rewrite length_roll; apply length_rsi_loss).
  split; [|split; [exact Lg | split; [exact Ll|]]].
  - rewrite length_map, length_zip_with; congruence.
  - intros i Hi. split; [|split].
    + rewrite cell_map by (rewrite length_zip_with; congruence).
      rewrite cell_zip_with by congruence. reflexivity.
    + unfold mean. rewrite cell_roll by (simpl; rewrite length_rsi_gain; exact Hi).
      reflexivity.
    + unfold mean. rewrite cell_roll by (simpl; rewrite length_rsi_loss; exact Hi).
      reflexivity.
Qed.

(** ** Signs *)

Lemma Qsign_Eq (q : Q) : Qsign q = Eq <-> q == 0.
Proof. unfold Qsign. symmetry. apply Qeq_alt. Qed.

Lemma Qsign_Lt (q : Q) : Qsign q = Lt <-> q < 0.
Proof. unfold Qsign. symmetry. apply Qlt_alt. Qed.

Lemma Qsign_Gt (q : Q) : Qsign q = Gt <-> 0 < q.
Proof. unfold Qsign. symmetry. apply Qgt_alt. Qed.

Lemma Qsign_of_nat (n : nat) :
  (0 < n)%nat -> Qsign (inject_Z (Z.of_nat n)) = Gt.
Proof.
  intros Hn. apply Qsign_Gt.
  change 0 with (inject_Z 0). rewrite <- Zlt_Qlt. lia.
Qed.

(** ** One cell of the RSI from the two averages *)

Lemma rsi_of_rs_infinite :
  rsi_of_rs PInf = Fin (100 - 0) /\ rsi_of_rs NInf = Fin (100 - 0).
Proof. split; reflexivity. Qed.

Lemma rsi_of_rs_NaN : rsi_of_rs NaN = NaN.
Proof. reflexivity. Qed.

Lemma rsi_cell_zero_zero (g l : Q) :
  g == 0 -> l == 0 -> rsi_of_rs (fdiv (Fin g) (Fin l)) = NaN.
Proof.
  intros Hg Hl. unfold fdiv.
  rewrite (proj2 (Qsign_Eq l) Hl), (proj2 (Qsign_Eq g) Hg). reflexivity.
Qed.

Lemma rsi_cell_zero_loss (a : fval) (l : Q) :
  a <> NaN -> ~ is_value a 0 -> l == 0 ->
  is_value (rsi_of_rs (fdiv a (Fin l))) 100.
Proof.
  intros Ha Hnz Hl. unfold fdiv.
  rewrite (proj2 (Qsign_Eq l) Hl).
  destruct a as [| | |g]; [congruence | simpl; lra | simpl; lra |].
  destruct (Qsign g) eqn:Hg.
  - exfalso. apply Hnz. simpl. apply Qsign_Eq. exact Hg.
  - simpl. lra.
  - simpl. lra.
Qed.

Lemma rsi_cell_pos_loss (g l : Q) :
  0 <= g -> 0 < l ->
  exists x, rsi_of_rs (fdiv (Fin g) (Fin l)) = Fin x /\ 0 <= x /\ x < 100.
Proof.
  intros Hg Hl.
  assert (Hrs : 0 <= g / l) by (apply Qle_shift_div_l; lra).
  assert (Hden : 0 < 1 + g / l) by lra.
  assert (Hq : 0 < 100 / (1 + g / l)) by (apply Qlt_shift_div_l; lra).
  assert (Hq' : 100 / (1 + g / l) <= 100) by (apply Qle_shift_div_r; nra).
  assert (Hrs' : fdiv (Fin g) (Fin l) = Fin (g / l))
    by (unfold fdiv; rewrite (proj2 (Qsign_Gt l) Hl); reflexivity).
  rewrite Hrs'. unfold rsi_of_rs, fadd, fdiv.
  rewrite (proj2 (Qsign_Gt _) Hden).
  eexists. split; [reflexivity|]. simpl. lra.
Qed.

Lemma rsi_cell_cases (g l : Q) :
  0 <= g -> 0 <= l ->
  (g == 0 /\ l == 0 /\ rsi_of_rs (fdiv (Fin g) (Fin l)) = NaN)
  \/ (~ (g == 0 /\ l == 0)
      /\ exists x, rsi_of_rs (fdiv (Fin g) (Fin l)) = Fin x
                   /\ 0 <= x /\ x <= 100).
Proof.
  intros Hg Hl.
  destruct (Qlt_le_dec 0 l) as [Hlpos|Hlle].
  - right. split; [intros [_ H0]; lra|].
    destruct (rsi_cell_pos_loss Hg Hlpos) as [x [Hx [Hx0 Hx1]]].
    exists x. repeat split; [exact Hx | exact Hx0 | lra].
  - assert (Hl0 : l == 0) by lra.
    destruct (Qlt_le_dec 0 g) as [Hgpos|Hgle].
    + right. split; [intros [H0 _]; lra|].
      assert (Hv : is_value (rsi_of_rs (fdiv (Fin g) (Fin l))) 100).
      { apply rsi_cell_zero_loss; [discriminate | simpl; lra | exact Hl0]. }
      destruct (rsi_of_rs (fdiv (Fin g) (Fin l))) as [| | |x];
        try contradiction.
      exists x. simpl in Hv. repeat split; lra.
    + left. assert (Hg0 : g == 0) by lra.
      repeat split; [exact Hg0 | exact Hl0 | apply rsi_cell_zero_zero; assumption].
Qed.

(** ** Windows over finite cells *)

Lemma fin_nonneg_finite (v : fval) : fin_nonneg v -> finite v.
Proof. destruct v; simpl; auto. Qed.

Lemma Forall_firstn {A} (P : A -> Prop) (n : nat) (l : list A) :
  Forall P l -> Forall P (firstn n l).
Proof.
  intros H. revert n. induction H as [|x l Hx Hl IH]; intros [|n]; simpl;
    constructor; auto.
Qed.

Lemma Forall_skipn {A} (P : A -> Prop) (n : nat) (l : list A) :
  Forall P l -> Forall P (skipn n l).
Proof.
  intros H. revert n. induction H as [|x l Hx Hl IH]; intros [|n]; simpl;
    auto.
Qed.

Lemma Forall_window_at (P : fval -> Prop) (w i : nat) (s : Series) :
  Forall P s -> Forall P (window_at w i s).
Proof. intros H. unfold window_at. apply Forall_skipn, Forall_firstn, H. Qed.

Lemma length_window_at (w i : nat) (s : Series) :
  (i < length s)%nat -> length (window_at w i s) = Nat.min (S i) w.
Proof.
  intros Hi. unfold window_at. rewrite length_skipn, length_firstn. lia.
Qed.

Lemma observations_finite (win : Series) :
  Forall finite win -> observations win = win.
Proof.
  unfold observations. induction 1 as [|x l Hx Hl IH]; simpl; [reflexivity|].
  destruct x; try contradiction. simpl. rewrite IH. reflexivity.
Qed.

Lemma length_observations (win : Series) :
  (length (observations win) <= length win)%nat.
Proof. apply filter_length_le. Qed.

Lemma fsum_finite (l : Series) :
  Forall finite l -> fsum l = Fin (Qsum (map qval l)).
Proof.
  unfold fsum. induction 1 as [|x l Hx Hl IH]; simpl; [reflexivity|].
  rewrite IH. destruct x; try contradiction. reflexivity.
Qed.

Lemma Qsum_nonneg (l : Series) :
  Forall fin_nonneg l -> 0 <= Qsum (map qval l).
Proof.
  induction 1 as [|x l Hx Hl IH]; simpl; [lra|].
  destruct x; try contradiction. simpl in *. lra.
Qed.

Lemma agg_mean_short (minp : nat) (win : Series) :
  (length win < minp)%nat -> agg_mean minp win = NaN.
Proof.
  intros H. unfold agg_mean.
  pose proof (length_observations win) as Hobs.
  replace (minp <=? length (observations win))%nat with false
    by (symmetry; apply Nat.leb_gt; lia).
  reflexivity.
Qed.

Lemma agg_mean_finite (minp : nat) (win : Series) :
  Forall finite win -> (0 < length win)%nat -> (minp <= length win)%nat ->
  agg_mean minp win
  = Fin (Qsum (map qval win) / inject_Z (Z.of_nat (length win))).
Proof.
  intros Hfin Hpos Hmin. unfold agg_mean.
  rewrite (observations_finite Hfin).
  rewrite (proj2 (Nat.leb_le _ _) Hmin), (proj2 (Nat.ltb_lt _ _) Hpos).
  simpl andb. cbv iota.
  rewrite (fsum_finite Hfin). unfold of_nat, fdiv.
  rewrite (Qsign_of_nat Hpos). reflexivity.
Qed.

Lemma mean_nonneg (s : Q) (n : nat) :
  0 <= s -> (0 < n)%nat -> 0 <= s / inject_Z (Z.of_nat n).
Proof.
  intros Hs Hn. apply Qle_shift_div_l; [|lra].
  apply Qsign_Gt, Qsign_of_nat, Hn.
Qed.

(** ** Gains and losses of a column of finite prices *)

Lemma diff_from_finite (c : Q) (t : list Q) :
  Forall finite (diff_from (Fin c) (prices t)).
Proof.
  revert c. induction t as [|x t IH]; intros c; simpl; constructor.
  - exact I.
  - apply IH.
Qed.

Lemma diff_prices (cs : list Q) : Forall nan_or_finite (diff (prices cs)).
Proof.
  destruct cs as [|c t]; simpl; constructor; [exact I|].
  eapply Forall_impl; [|apply diff_from_finite].
  intros [| | |q]; simpl; auto.
Qed.

Lemma rsi_gain_nonneg (cs : list Q) : Forall fin_nonneg (rsi_gain (prices cs)).
Proof.
  unfold rsi_gain, rsi_delta, where_. apply Forall_map.
  eapply Forall_impl; [|apply diff_prices].
  intros [| | |q]; cbn [nan_or_finite fgt0 fin_nonneg]; try contradiction;
    intros _; [lra|].
  destruct (Qsign q) eqn:Hq; cbn [fin_nonneg]; try lra.
  apply (proj1 (Qsign_Gt q)) in Hq. lra.
Qed.

Lemma rsi_loss_nonneg (cs : list Q) : Forall fin_nonneg (rsi_loss (prices cs)).
Proof.
  unfold rsi_loss, series_neg, rsi_delta, where_. rewrite map_map.
  apply Forall_map.
  eapply Forall_impl; [|apply diff_prices].
  intros [| | |q]; cbn [nan_or_finite flt0 fneg fin_nonneg]; try contradiction;
    intros _; [lra|].
  destruct (Qsign q) eqn:Hq; cbn [fin_nonneg fneg]; try lra.
  apply (proj1 (Qsign_Lt q)) in Hq. lra.
Qed.

(** The mean of a window of non-negative finite cells, with one observation
    asked for. *)
Lemma agg_mean_window (s : Series) (i : nat) :
  Forall fin_nonneg s -> (i < length s)%nat ->
  let win := window_at (Z.to_nat default_period) i s in
  let n := Nat.min (S i) (Z.to_nat default_period) in
  length win = n
  /\ agg_mean 1 win = Fin (window_sum win / inject_Z (Z.of_nat n))
  /\ 0 <= window_sum win / inject_Z (Z.of_nat n).
Proof.
  intros Hs Hi win n.
  assert (Hlen : length win = n) by (apply length_window_at; exact Hi).
  assert (Hn : (0 < n)%nat) by (unfold n, default_period; lia).
  assert (Hwin : Forall fin_nonneg win) by (apply Forall_window_at; exact Hs).
  assert (Hfin : Forall finite win)
    by (eapply Forall_impl; [apply fin_nonneg_finite | exact Hwin]).
  split; [exact Hlen|]. split.
  - rewrite agg_mean_finite; [rewrite Hlen; reflexivity | exact Hfin | lia | lia].
  - apply mean_nonneg; [apply Qsum_nonneg; exact Hwin | exact Hn].
Qed.

Lemma rsi_cell_spec (cs : list Q) (r ag al : Series) (i : nat) :
  calculate_rsi (prices cs) default_period = Ok r ->
  rsi_avg_gain (prices cs) default_period = Ok ag ->
  rsi_avg_loss (prices cs) default_period = Ok al ->
  (i < length cs)%nat ->
  let n := Nat.min (S i) (Z.to_nat default_period) in
  let wg := window_at (Z.to_nat default_period) i (rsi_gain (prices cs)) in
  let wl := window_at (Z.to_nat default_period) i (rsi_loss (prices cs)) in
  exists g l : Q,
    cell ag i = Fin g /\ cell al i = Fin l
    /\ g = window_sum wg / inject_Z (Z.of_nat n)
    /\ l = window_sum wl / inject_Z (Z.of_nat n)
    /\ length wg = n /\ length wl = n
    /\ 0 <= g /\ 0 <= l
    /\ cell r i = rsi_of_rs (fdiv (Fin g) (Fin l)).
Proof.
  intros Hr Hag Hal Hi n wg wl.
  destruct (calculate_rsi_cells Hr Hag Hal) as [_ [_ [_ Hcells]]].
  assert (Hi' : (i < length (prices cs))%nat)
    by (unfold prices; rewrite length_map; exact Hi).
  destruct (Hcells i Hi') as [Hri [Hgi Hli]].
  assert (Hig : (i < length (rsi_gain (prices cs)))%nat)
    by (rewrite length_rsi_gain; exact Hi').
  assert (Hil : (i < length (rsi_loss (prices cs)))%nat)
    by (rewrite length_rsi_loss; exact Hi').
  destruct (agg_mean_window (rsi_gain_nonneg cs) Hig) as [Lg [Mg Ng]].
  destruct (agg_mean_window (rsi_loss_nonneg cs) Hil) as [Ll [Ml Nl]].
  exists (window_sum wg / inject_Z (Z.of_nat n)),
         (window_sum wl / inject_Z (Z.of_nat n)).
  rewrite Hri, Hgi, Hli, Mg, Ml.
  repeat split; assumption.
Qed.

Lemma rsi_first_cell (cs : list Q) (r : Series) :
  calculate_rsi (prices cs) default_period = Ok r -> cell r 0 = NaN.
Proof.
  intros Hr. destruct cs as [|c t].
  - injection Hr as <-. reflexivity.
  - destruct (calculate_rsi_cells Hr eq_refl eq_refl) as [_ [_ [_ Hcells]]].
    destruct (Hcells 0%nat) as [H0 _]; [simpl; lia|].
    rewrite H0. unfold mean.
    rewrite !cell_roll
      by (simpl r_obj; rewrite ?length_rsi_gain, ?length_rsi_loss; simpl; lia).
    reflexivity.
Qed.

(** ** Bollinger bands, cell by cell *)

Section BandsFacts.

Variable sqrtQ : Q -> Q.

Lemma rolling_close_default (data : DataFrame) :
  rolling (col_Close data) default_window None = Ok (close_rolling data).
Proof. reflexivity. Qed.

Lemma length_mean_close (data : DataFrame) :
  length (mean (close_rolling data)) = length data.
Proof. unfold mean. rewrite length_roll. simpl. apply length_map. Qed.

Lemma length_std_close (data : DataFrame) :
  length (std sqrtQ (close_rolling data)) = length data.
Proof. unfold std. rewrite length_map, length_roll. simpl. apply length_map. Qed.

Lemma calculate_bbands_cells (data : DataFrame) (b : BBands) :
  calculate_bbands sqrtQ data default_window default_no_of_std = Ok b ->
  length (Upper b) = length data /\ length (Lower b) = length data
  /\ forall i, (i < length data)%nat ->
       let m := cell (mean (close_rolling data)) i in
       let sd := cell (std sqrtQ (close_rolling data)) i in
       cell (Upper b) i = fadd m (fmul sd (Fin default_no_of_std))
       /\ cell (Lower b) i = fsub m (fmul sd (Fin default_no_of_std)).
Proof.
  unfold calculate_bbands. rewrite rolling_close_default. cbn [rbind].
  intros Hb. injection Hb as <-. simpl Upper. simpl Lower.
  pose proof (length_mean_close data) as Lm.
  pose proof (length_std_close data) as Ls.
  assert (Lsc : length (map (fun v => fmul v (Fin default_no_of_std))
                            (std sqrtQ (close_rolling data))) = length data)
    by (rewrite length_map; exact Ls).
  split; [rewrite length_zip_with; congruence|].
  split; [rewrite length_zip_with; congruence|].
  intros i Hi. cbv zeta.
  rewrite !cell_zip_with by congruence.
  rewrite cell_map by (rewrite Ls; exact Hi).
  split; reflexivity.
Qed.

Lemma cell_mean_close (data : DataFrame) (i : nat) :
  (i < length data)%nat ->
  cell (mean (close_rolling data)) i
  = agg_mean (Z.to_nat default_window) (window_at (Z.to_nat default_window) i (col_Close data)).
Proof.
  intros Hi. unfold mean.
  rewrite cell_roll by (simpl; unfold col_Close; rewrite length_map; exact Hi).
  reflexivity.
Qed.

Lemma cell_std_close (data : DataFrame) (i : nat) :
  (i < length data)%nat ->
  cell (std sqrtQ (close_rolling data)) i
  = fsqrt sqrtQ
      (agg_var (Z.to_nat default_window) 1 (window_at (Z.to_nat default_window) i (col_Close data))).
Proof.
  intros Hi. unfold std.
  rewrite cell_map
    by (rewrite length_roll; simpl; unfold col_Close; rewrite length_map; exact Hi).
  rewrite cell_roll by (simpl; unfold col_Close; rewrite length_map; exact Hi).
  reflexivity.
Qed.

Lemma fsqrt_nonneg (v : fval) (sd : Q) :
  (forall x, 0 <= x -> 0 <= sqrtQ x) ->
  fsqrt sqrtQ v = Fin sd -> 0 <= sd.
Proof.
  intros Hsqrt. destruct v as [| | |q]; simpl; try discriminate.
  - intros H. injection H as <-. lra.
  - destruct (Qsign q) eqn:Hq; intros H; injection H as <-.
    + apply Hsqrt. apply (proj1 (Qsign_Eq q)) in Hq. lra.
    + lra.
    + apply Hsqrt. apply (proj1 (Qsign_Gt q)) in Hq. lra.
Qed.

Lemma fsqrt_finite (q : Q) : exists sd, fsqrt sqrtQ (Fin q) = Fin sd.
Proof. simpl. destruct (Qsign q); eexists; reflexivity. Qed.

Lemma fadd_finite_inv (a b : fval) (u : Q) :
  fadd a b = Fin u -> exists x y, a = Fin x /\ b = Fin y /\ u = x + y.
Proof.
  destruct a as [| | |x], b as [| | |y]; simpl; try discriminate.
  intros H. injection H as <-. exists x, y. repeat split.
Qed.

Lemma fmul_two_finite_inv (a : fval) (y : Q) :
  fmul a (Fin default_no_of_std) = Fin y ->
  exists x, a = Fin x /\ y = x * default_no_of_std.
Proof.
  destruct a as [| | |x]; simpl; try discriminate.
  intros H. injection H as <-. exists x. split; reflexivity.
Qed.

Lemma agg_var_finite (win : Series) :
  Forall finite win -> length win = Z.to_nat default_window ->
  exists v, agg_var (Z.to_nat default_window) 1 win = Fin v.
Proof.
  intros Hfin Hlen. unfold agg_var.
  rewrite (observations_finite Hfin), Hlen.
  simpl andb. cbv iota.
  set (m := Qsum (map qval win) / inject_Z (Z.of_nat (Z.to_nat default_window))).
  assert (Hm : fdiv (fsum win) (of_nat (Z.to_nat default_window)) = Fin m).
  { rewrite (fsum_finite Hfin). unfold of_nat, fdiv.
    rewrite (@Qsign_of_nat (Z.to_nat default_window)) by (unfold default_window; lia).
    reflexivity. }
  rewrite Hm.
  assert (Hdev : Forall finite
                   (map (fun x => fmul (fsub x (Fin m)) (fsub x (Fin m))) win)).
  { apply Forall_map. eapply Forall_impl; [|exact Hfin].
    intros [| | |q]; simpl; auto. }
  rewrite (fsum_finite Hdev). unfold of_nat, fdiv.
  rewrite (@Qsign_of_nat (Z.to_nat default_window - 1)) by (unfold default_window; lia).
  eexists. reflexivity.
Qed.

End BandsFacts.

(** * The relative strength index *)

(** A few runs.  Closes 10, 12, 11, 11, 14: the averages at index 1 divide by
    two (the cell of index 0 counts, with no gain and no loss). *)
Example rsi_run_five :
  calculate_rsi (prices [10; 12; 11; 11; 14]) default_period
  = Ok [NaN; Fin 100; Fin (600 # 9); Fin (800 # 12); Fin (2500 # 30)]
  /\ rsi_avg_gain (prices [10; 12; 11; 11; 14]) default_period
     = Ok [Fin 0; Fin (2 # 2); Fin (2 # 3); Fin (2 # 4); Fin (5 # 5)]
  /\ rsi_avg_loss (prices [10; 12; 11; 11; 14]) default_period
     = Ok [Fin 0; Fin (0 # 2); Fin (1 # 3); Fin (1 # 4); Fin (1 # 5)].
Proof. repeat split; vm_compute; reflexivity. Qed.

(** A window of zero cells is refused by [rolling], and the error reaches
    the caller of [calculate_rsi]. *)
Example rsi_run_period_zero :
  calculate_rsi (prices [1; 3]) 0
  = Raise (ValueError "min_periods must be <= window").
Proof. reflexivity. Qed.

(** C1 (as amended): for every series of finite prices, the RSI of period 14
    has the length of the series and is undefined at index 0.  At every
    index [i] the average gain and the average loss are defined: each is the
    mean over the [min (i+1) 14] trailing cells of the gain and of the loss
    series (one cell is enough), whose cell of index 0 is zero.  So the RSI
    does not wait for a full window of 14: at an index it is undefined when
    both averages are zero, and defined otherwise. *)
Theorem rsi_defined_without_full_window :
  forall cs : list Q,
  exists r ag al : Series,
    calculate_rsi (prices cs) default_period = Ok r
    /\ rsi_avg_gain (prices cs) default_period = Ok ag
    /\ rsi_avg_loss (prices cs) default_period = Ok al
    /\ length r = length cs
    /\ cell r 0 = NaN
    /\ match cs with
       | [] => True
       | _ :: _ => is_value (cell (rsi_gain (prices cs)) 0) 0
                   /\ is_value (cell (rsi_loss (prices cs)) 0) 0
       end
    /\ forall i, (i < length cs)%nat ->
         let n := Nat.min (S i) (Z.to_nat default_period) in
         let wg := window_at (Z.to_nat default_period) i (rsi_gain (prices cs)) in
         let wl := window_at (Z.to_nat default_period) i (rsi_loss (prices cs)) in
         exists g l : Q,
           cell ag i = Fin g /\ cell al i = Fin l
           /\ length wg = n /\ length wl = n
           /\ g = window_sum wg / inject_Z (Z.of_nat n)
           /\ l = window_sum wl / inject_Z (Z.of_nat n)
           /\ (g == 0 /\ l == 0 -> cell r i = NaN)
           /\ (~ (g == 0 /\ l == 0) -> exists x, cell r i = Fin x).
Proof.
  intros cs.
  destruct (calculate_rsi_default_ok (prices cs)) as [r Hr].
  exists r. eexists. eexists.
  split; [exact Hr|]. split; [reflexivity|]. split; [reflexivity|].
  split.
  { destruct (calculate_rsi_cells Hr eq_refl eq_refl) as [Hlen _].
    rewrite Hlen. unfold prices. apply length_map. }
  split; [exact (rsi_first_cell cs Hr)|].
  split; [destruct cs; [exact I | split; reflexivity]|].
  intros i Hi n wg wl.
  destruct (rsi_cell_spec cs Hr eq_refl eq_refl Hi)
    as [g [l [Hg [Hl [Eg [El [Lg [Ll [Ng [Nl Hcell]]]]]]]]]].
  exists g, l.
  split; [exact Hg|]. split; [exact Hl|].
  split; [exact Lg|]. split; [exact Ll|].
  split; [exact Eg|]. split; [exact El|].
  rewrite Hcell.
  destruct (rsi_cell_cases Ng Nl) as [[Hg0 [Hl0 Hnan]]|[Hmove [x [Hx _]]]].
  - split; [intros _; exact Hnan|].
    intros Hno. exfalso. apply Hno. split; assumption.
  - split; [intros Hz; contradiction|]. intros _. exists x. exact Hx.
Qed.

(** C1, as stated, fails on a flat series: with the two closes 1 and 1 the
    series has length 2 and its RSI at the second index is undefined. *)
Lemma rsi_flat_series_undefined :
  (2 <= length [1; 1])%nat
  /\ exists r : Series,
       calculate_rsi (prices [1; 1]) default_period = Ok r
       /\ length r = 2%nat
       /\ cell r 1 = NaN.
Proof.
  split; [simpl; lia|]. exists [NaN; NaN]. repeat split.
Qed.

(** C2: at every index where the average gain and the average loss are both
    exactly zero, the RSI is [NaN], the missing-value marker: it is not the
    number 0, 50 or 100. *)
Theorem rsi_undefined_without_movement :
  forall (s r ag al : Series) (i : nat),
    calculate_rsi s default_period = Ok r ->
    rsi_avg_gain s default_period = Ok ag ->
    rsi_avg_loss s default_period = Ok al ->
    is_value (cell ag i) 0 ->
    is_value (cell al i) 0 ->
    cell r i = NaN
    /\ ~ is_value (cell r i) 0 /\ ~ is_value (cell r i) 50
    /\ ~ is_value (cell r i) 100.
Proof.
  intros s r ag al i Hr Hag Hal Hg Hl.
  destruct (calculate_rsi_cells Hr Hag Hal) as [_ [Lag [_ Hcells]]].
  assert (Hi : (i < length s)%nat).
  { destruct (Nat.lt_ge_cases i (length s)) as [H|H]; [exact H|].
    rewrite cell_overflow in Hg by lia. contradiction. }
  destruct (Hcells i Hi) as [Hri _].
  assert (Hnan : cell r i = NaN).
  { rewrite Hri.
    destruct (cell ag i) as [| | |g]; try contradiction.
    destruct (cell al i) as [| | |l]; try contradiction.
    apply rsi_cell_zero_zero; assumption. }
  rewrite Hnan. simpl. tauto.
Qed.

(** The flat series 1, 1 at its second index. *)
Lemma rsi_undefined_without_movement_witness :
  calculate_rsi (prices [1; 1]) default_period = Ok [NaN; NaN]
  /\ rsi_avg_gain (prices [1; 1]) default_period = Ok [Fin 0; Fin (0 # 2)]
  /\ rsi_avg_loss (prices [1; 1]) default_period = Ok [Fin 0; Fin (0 # 2)]
  /\ is_value (cell [Fin 0; Fin (0 # 2)] 1) 0
  /\ cell [NaN; NaN] 1 = NaN
  /\ ~ is_value (cell [NaN; NaN] 1) 0
  /\ ~ is_value (cell [NaN; NaN] 1) 50
  /\ ~ is_value (cell [NaN; NaN] 1) 100.
Proof.
  assert (Hr : calculate_rsi (prices [1; 1]) default_period = Ok [NaN; NaN])
    by (vm_compute; reflexivity).
  assert (Hg : rsi_avg_gain (prices [1; 1]) default_period
               = Ok [Fin 0; Fin (0 # 2)]) by (vm_compute; reflexivity).
  assert (Hl : rsi_avg_loss (prices [1; 1]) default_period
               = Ok [Fin 0; Fin (0 # 2)]) by (vm_compute; reflexivity).
  assert (Hz : is_value (cell [Fin 0; Fin (0 # 2)] 1) 0)
    by (vm_compute; reflexivity).
  split; [exact Hr|]. split; [exact Hg|]. split; [exact Hl|].
  split; [exact Hz|].
  exact (@rsi_undefined_without_movement _ _ _ _ 1%nat Hr Hg Hl Hz Hz).
Defined.

(** C3: at every index where the average loss is zero and the average gain
    is a value other than zero, the RSI is exactly 100; and on the 30 closes
    1, 2, ..., 30 the RSI has 30 cells, [NaN] first and 100 in the 29
    others. *)
Theorem rsi_hundred_without_loss :
  (forall (s r ag al : Series) (i : nat),
     calculate_rsi s default_period = Ok r ->
     rsi_avg_gain s default_period = Ok ag ->
     rsi_avg_loss s default_period = Ok al ->
     is_value (cell al i) 0 ->
     cell ag i <> NaN ->
     ~ is_value (cell ag i) 0 ->
     is_value (cell r i) 100)
  /\ length closes_1_to_30 = 30%nat
  /\ calculate_rsi (prices closes_1_to_30) default_period
     = Ok (NaN :: repeat (Fin 100) 29)
  /\ length (NaN :: repeat (Fin 100) 29) = 30%nat.
Proof.
  split; [|split; [reflexivity | split; [vm_compute; reflexivity|reflexivity]]].
  intros s r ag al i Hr Hag Hal Hl Hg Hgnz.
  destruct (calculate_rsi_cells Hr Hag Hal) as [_ [_ [Lal Hcells]]].
  assert (Hi : (i < length s)%nat).
  { destruct (Nat.lt_ge_cases i (length s)) as [H|H]; [exact H|].
    rewrite cell_overflow in Hl by lia. contradiction. }
  destruct (Hcells i Hi) as [Hri _]. rewrite Hri.
  destruct (cell al i) as [| | |l]; try contradiction.
  apply rsi_cell_zero_loss; assumption.
Qed.

(** The rising series 1, 3 at its second index. *)
Lemma rsi_hundred_without_loss_witness :
  calculate_rsi (prices [1; 3]) default_period = Ok [NaN; Fin 100]
  /\ rsi_avg_gain (prices [1; 3]) default_period = Ok [Fin 0; Fin (2 # 2)]
  /\ rsi_avg_loss (prices [1; 3]) default_period = Ok [Fin 0; Fin (0 # 2)]
  /\ is_value (cell [Fin 0; Fin (0 # 2)] 1) 0
  /\ cell [Fin 0; Fin (2 # 2)] 1 <> NaN
  /\ ~ is_value (cell [Fin 0; Fin (2 # 2)] 1) 0
  /\ is_value (cell [NaN; Fin 100] 1) 100.
Proof.
  assert (Hr : calculate_rsi (prices [1; 3]) default_period
               = Ok [NaN; Fin 100]) by (vm_compute; reflexivity).
  assert (Hg : rsi_avg_gain (prices [1; 3]) default_period
               = Ok [Fin 0; Fin (2 # 2)]) by (vm_compute; reflexivity).
  assert (Hl : rsi_avg_loss (prices [1; 3]) default_period
               = Ok [Fin 0; Fin (0 # 2)]) by (vm_compute; reflexivity).
  assert (Hz : is_value (cell [Fin 0; Fin (0 # 2)] 1) 0)
    by (vm_compute; reflexivity).
  assert (Hn : cell [Fin 0; Fin (2 # 2)] 1 <> NaN) by (simpl; discriminate).
  assert (Hnz : ~ is_value (cell [Fin 0; Fin (2 # 2)] 1) 0)
    by (vm_compute; discriminate).
  split; [exact Hr|]. split; [exact Hg|]. split; [exact Hl|].
  split; [exact Hz|]. split; [exact Hn|]. split; [exact Hnz|].
  exact (proj1 rsi_hundred_without_loss _ _ _ _ 1%nat Hr Hg Hl Hz Hn Hnz).
Defined.

(** C4: for every series of finite prices, every cell of the RSI is either
    undefined or a number between 0 and 100 (it is never infinite). *)
Theorem rsi_bounded :
  forall cs : list Q,
  exists r : Series,
    calculate_rsi (prices cs) default_period = Ok r
    /\ forall i : nat,
         match cell r i with
         | NaN => True
         | Fin x => 0 <= x /\ x <= 100
         | PInf | NInf => False
         end.
Proof.
  intros cs.
  destruct (calculate_rsi_default_ok (prices cs)) as [r Hr].
  exists r. split; [exact Hr|]. intros i.
  destruct (Nat.lt_ge_cases i (length cs)) as [Hi|Hi].
  - destruct (rsi_cell_spec cs Hr eq_refl eq_refl Hi)
      as [g [l [_ [_ [_ [_ [_ [_ [Ng [Nl Hcell]]]]]]]]]].
    rewrite Hcell.
    destruct (rsi_cell_cases Ng Nl) as [[_ [_ Hnan]]|[_ [x [Hx Hb]]]].
    + rewrite Hnan. exact I.
    + rewrite Hx. exact Hb.
  - rewrite cell_overflow; [exact I|].
    destruct (calculate_rsi_cells Hr eq_refl eq_refl) as [Hlen _].
    rewrite Hlen. unfold prices. rewrite length_map. exact Hi.
Qed.

(** * Bollinger bands *)

Section BandsTheorems.

Variable sqrtQ : Q -> Q.

(** C5: for every frame whose closes are finite, the two Bollinger series
    (window 20) have the length of the frame, are undefined at every index
    below [window - 1 = 19] and are defined at every index from 19 on: the
    window is strict, a shorter one is not averaged. *)
Theorem bbands_defined_from_full_window :
  forall (data : DataFrame) (cs : list Q),
    col_Close data = prices cs ->
    exists b : BBands,
      calculate_bbands sqrtQ data default_window default_no_of_std = Ok b
      /\ length (Upper b) = length data
      /\ length (Lower b) = length data
      /\ forall i : nat, (i < length data)%nat ->
           if (i <? Z.to_nat default_window - 1)%nat
           then cell (Upper b) i = NaN /\ cell (Lower b) i = NaN
           else exists u l : Q,
                  cell (Upper b) i = Fin u /\ cell (Lower b) i = Fin l.
Proof.
  intros data cs Hclose.
  destruct (calculate_bbands_default_ok sqrtQ data) as [b Hb].
  exists b. split; [exact Hb|].
  destruct (calculate_bbands_cells Hb) as [LU [LL Hcells]].
  split; [exact LU|]. split; [exact LL|].
  intros i Hi. destruct (Hcells i Hi) as [HU HL].
  rewrite HU, HL, cell_mean_close, cell_std_close by exact Hi.
  assert (Hic : (i < length (col_Close data))%nat)
    by (unfold col_Close; rewrite length_map; exact Hi).
  pose proof (length_window_at (Z.to_nat default_window) (col_Close data) Hic) as Hlen.
  destruct (i <? Z.to_nat default_window - 1)%nat eqn:Hcmp.
  - apply Nat.ltb_lt in Hcmp.
    rewrite agg_mean_short by (rewrite Hlen; unfold default_window in *; lia).
    split; reflexivity.
  - apply Nat.ltb_ge in Hcmp.
    assert (Hlen' : length (window_at (Z.to_nat default_window) i (col_Close data))
                    = Z.to_nat default_window)
      by (rewrite Hlen; unfold default_window in *; lia).
    assert (Hfin : Forall finite (window_at (Z.to_nat default_window) i (col_Close data))).
    { apply Forall_window_at. rewrite Hclose. unfold prices.
      apply Forall_map, Forall_forall. intros x _. exact I. }
    rewrite (agg_mean_finite Hfin)
      by (rewrite Hlen'; unfold default_window; lia).
    destruct (agg_var_finite Hfin Hlen') as [v Hv]. rewrite Hv.
    destruct (fsqrt_finite sqrtQ v) as [sd Hsd]. rewrite Hsd.
    eexists. eexists. split; reflexivity.
Qed.

(** C6: at every index where the two bands are defined, the mean and the
    standard deviation of the window are defined, the deviation is not
    negative, the upper band is the mean plus twice the deviation, the lower
    band the mean minus twice the deviation, and so the upper band is at
    least the lower one.  The square root is any function that sends a
    non-negative number to a non-negative number. *)
Theorem bbands_upper_above_lower :
  (forall x : Q, 0 <= x -> 0 <= sqrtQ x) ->
  forall (data : DataFrame) (b : BBands) (i : nat) (u l : Q),
    calculate_bbands sqrtQ data default_window default_no_of_std = Ok b ->
    cell (Upper b) i = Fin u ->
    cell (Lower b) i = Fin l ->
    exists m sd : Q,
      cell (mean (close_rolling data)) i = Fin m
      /\ cell (std sqrtQ (close_rolling data)) i = Fin sd
      /\ 0 <= sd
      /\ u == m + 2 * sd
      /\ l == m - 2 * sd
      /\ l <= u.
Proof.
  intros Hsqrt data b i u l Hb HU HL.
  destruct (calculate_bbands_cells Hb) as [LU [_ Hcells]].
  assert (Hi : (i < length data)%nat).
  { destruct (Nat.lt_ge_cases i (length data)) as [H|H]; [exact H|].
    rewrite cell_overflow in HU by lia. discriminate. }
  destruct (Hcells i Hi) as [EU EL].
  rewrite EU in HU. rewrite EL in HL.
  destruct (fadd_finite_inv _ _ HU) as [m [y [Hm [Hy Hu]]]].
  destruct (fmul_two_finite_inv _ Hy) as [sd [Hsd Hy']].
  exists m, sd.
  assert (Hsd0 : 0 <= sd).
  { rewrite cell_std_close in Hsd by exact Hi.
    exact (fsqrt_nonneg sqrtQ _ Hsqrt Hsd). }
  rewrite Hm, Hsd in HL. simpl in HL. injection HL as <-.
  subst u y. unfold default_no_of_std.
  split; [exact Hm|]. split; [exact Hsd|]. split; [exact Hsd0|].
  repeat split; lra.
Qed.

End BandsTheorems.

Lemma isqrtQ_nonneg (x : Q) : 0 <= x -> 0 <= isqrtQ x.
Proof.
  intros _. unfold isqrtQ, Qle. cbn [Qnum Qden].
  rewrite Z.mul_0_l, Z.mul_1_r. apply Z.sqrt_nonneg.
Qed.

(** The frame of the closes 1, 2, ..., 30. *)
Lemma bbands_defined_from_full_window_witness :
  col_Close frame_1_to_30 = prices closes_1_to_30
  /\ exists b : BBands,
      calculate_bbands isqrtQ frame_1_to_30 default_window default_no_of_std
      = Ok b
      /\ length (Upper b) = length frame_1_to_30
      /\ length (Lower b) = length frame_1_to_30
      /\ forall i : nat, (i < length frame_1_to_30)%nat ->
           if (i <? Z.to_nat default_window - 1)%nat
           then cell (Upper b) i = NaN /\ cell (Lower b) i = NaN
           else exists u l : Q,
                  cell (Upper b) i = Fin u /\ cell (Lower b) i = Fin l.
Proof.
  split; [reflexivity|].
  apply (@bbands_defined_from_full_window isqrtQ frame_1_to_30 closes_1_to_30).
  reflexivity.
Defined.

(** The twenty closes at index 19, with the six-decimal square root. *)
Lemma bbands_upper_above_lower_witness :
  (forall x : Q, 0 <= x -> 0 <= isqrtQ x)
  /\ calculate_bbands isqrtQ (frame_of twenty_closes) default_window
                      default_no_of_std = Ok twenty_bands
  /\ cell (Upper twenty_bands) 19 = Fin twenty_upper
  /\ cell (Lower twenty_bands) 19 = Fin twenty_lower
  /\ exists m sd : Q,
       cell (mean (close_rolling (frame_of twenty_closes))) 19 = Fin m
       /\ cell (std isqrtQ (close_rolling (frame_of twenty_closes))) 19 = Fin sd
       /\ 0 <= sd
       /\ twenty_upper == m + 2 * sd
       /\ twenty_lower == m - 2 * sd
       /\ twenty_lower <= twenty_upper.
Proof.
  assert (Hb : calculate_bbands isqrtQ (frame_of twenty_closes) default_window
                                default_no_of_std = Ok twenty_bands)
    by (vm_compute; reflexivity).
  assert (HU : cell (Upper twenty_bands) 19 = Fin twenty_upper)
    by reflexivity.
  assert (HL : cell (Lower twenty_bands) 19 = Fin twenty_lower)
    by reflexivity.
  split; [exact isqrtQ_nonneg|]. split; [exact Hb|].
  split; [exact HU|]. split; [exact HL|].
  exact (@bbands_upper_above_lower isqrtQ isqrtQ_nonneg _ _ 19%nat _ _
           Hb HU HL).
Defined.

(** The bands of the twenty closes at index 19: 8.67065 and 1.32935. *)
Example twenty_bands_values :
  Qred twenty_upper = 173413 # 20000 /\ Qred twenty_lower = 26587 # 20000.
Proof. split; reflexivity. Qed.

(** * Selection and assembly *)

(** C7: for every assignment of the four moving-average toggles, [get_mav]
    returns the windows of the enabled toggles in the fixed order 5, 20, 60,
    200, and returns [None] (which is not the empty list, and the empty list
    is never returned) when no toggle is enabled; the toggles ma20, ma5 and
    ma200 on and ma60 off give [[5; 20; 200]]. *)
Theorem get_mav_fixed_order :
  forall self : StockApp,
    get_mav self =
      (if any_ma self then Some (enabled_windows self) else None)
    /\ get_mav self <> Some []
    /\ get_mav app_ma_example = Some [5; 20; 200]%nat.
Proof.
  intros [sym itv vol rsi bb m5 m20 m60 m200].
  unfold get_mav, any_ma, enabled_windows; simpl.
  destruct m5, m20, m60, m200; simpl;
    (split; [reflexivity | split; [discriminate | reflexivity]]).
Qed.

(** ** Runs of [plot_data] *)

Lemma get_mav_not_empty (self : StockApp) : get_mav self <> Some [].
Proof.
  destruct self as [sym itv vol rsi bb m5 m20 m60 m200].
  unfold get_mav; simpl. destruct m5, m20, m60, m200; discriminate.
Qed.

Section PlotRuns.

Variable sqrtQ : Q -> Q.
Variable mpf_plot : plot_params -> result unit.

Lemma get_indicators_log (self : StockApp) (data : DataFrame) (log : list event) :
  exists addplots : list addplot,
    get_indicators sqrtQ self data log = (Ok addplots, log ++ entered self).
Proof.
  destruct (calculate_rsi_default_ok (col_Close data)) as [rsi Hrsi].
  destruct (calculate_bbands_default_ok sqrtQ data) as [bb Hbb].
  unfold get_indicators, entered, bind, lift, emit, ret.
  destruct (show_rsi self), (show_bbands self);
    rewrite ?Hrsi, ?Hbb; cbv beta iota; eexists;
    rewrite <- ?app_assoc; simpl; rewrite ?app_nil_r; reflexivity.
Qed.

(** [plot_data] clears the canvas, enters the indicator functions that are
    switched on and calls the renderer once; what follows is the
    renderer's. *)
Lemma plot_data_run (self : StockApp) (data : DataFrame) :
  exists addplots : list addplot,
    get_indicators sqrtQ self data [ClearCanvas]
    = (Ok addplots, ClearCanvas :: entered self)
    /\ plot_data sqrtQ mpf_plot self data []
       = after_render
           (mpf_plot (mkPlotParams data "candle" "charles" (show_volume self)
                                   addplots true (10, 6)%nat (get_mav self)))
           (ClearCanvas :: entered self
              ++ [MpfPlot (mkPlotParams data "candle" "charles"
                                        (show_volume self) addplots true
                                        (10, 6)%nat (get_mav self))]).
Proof.
  destruct (get_indicators_log self data [ClearCanvas]) as [addplots Hrun].
  exists addplots. split; [exact Hrun|].
  assert (Hmav : match get_mav self with
                 | Some (_ :: _) => get_mav self
                 | _ => None
                 end = get_mav self).
  { pose proof (get_mav_not_empty self) as Hne.
    destruct (get_mav self) as [[|n l]|]; [contradiction Hne | |]; reflexivity. }
  unfold plot_data, bind, emit, lift. cbv beta iota. simpl app at 1.
  rewrite Hrun. cbv beta iota. rewrite Hmav.
  unfold after_render.
  destruct (mpf_plot _) as [[]|e]; simpl; rewrite <- ?app_assoc; reflexivity.
Qed.

Lemma no_error_before_render (self : StockApp) (params : plot_params)
      (title msg : string) :
  ~ In (ShowError title msg) (ClearCanvas :: entered self ++ [MpfPlot params]).
Proof.
  unfold entered. intros Hin.
  destruct (show_rsi self), (show_bbands self); simpl in Hin;
    repeat (destruct Hin as [Hin|Hin]; [discriminate Hin|]); exact Hin.
Qed.

End PlotRuns.

(** ** Overlay assembly *)

Section Assembly.

Variable sqrtQ : Q -> Q.
Variable mpf_plot : plot_params -> result unit.

(** C10: when both the RSI and the Bollinger toggles are off,
    [get_indicators] returns the empty list (a list, with no effect on the
    log), and the parameters handed to the renderer carry that empty list,
    whereas with no moving-average toggle on [get_mav] is [None] and the
    parameters carry no moving-average entry.  The log of [plot_data] is
    then the cleared canvas, the call of the renderer with these parameters
    and, when the renderer returns, the drawing. *)
Theorem get_indicators_empty_list :
  forall (sym itv : string) (vol m5 m20 m60 m200 : bool) (data : DataFrame)
         (log : list event),
    get_indicators sqrtQ (mkStockApp sym itv vol false false m5 m20 m60 m200)
                   data log
    = (Ok [], log)
    /\ get_mav (mkStockApp sym itv vol false false false false false false)
       = None
    /\ plot_data sqrtQ mpf_plot
         (mkStockApp sym itv vol false false false false false false) data []
       = after_render
           (mpf_plot (mkPlotParams data "candle" "charles" vol [] true
                                   (10, 6)%nat None))
           [ClearCanvas;
            MpfPlot (mkPlotParams data "candle" "charles" vol [] true
                                  (10, 6)%nat None)]
    /\ (mpf_plot (mkPlotParams data "candle" "charles" vol [] true
                               (10, 6)%nat None) = Ok tt ->
        effects
          (plot_data sqrtQ mpf_plot
             (mkStockApp sym itv vol false false false false false false)
             data)
        = [ClearCanvas;
           MpfPlot (mkPlotParams data "candle" "charles" vol [] true
                                 (10, 6)%nat None);
           DrawCanvas]).
Proof.
  intros.
  assert (Hplot :
    plot_data sqrtQ mpf_plot
      (mkStockApp sym itv vol false false false false false false) data []
    = after_render
        (mpf_plot (mkPlotParams data "candle" "charles" vol [] true
                                (10, 6)%nat None))
        [ClearCanvas;
         MpfPlot (mkPlotParams data "candle" "charles" vol [] true
                               (10, 6)%nat None)]).
  { unfold plot_data, get_indicators, bind, emit, lift, ret, after_render.
    simpl. destruct (mpf_plot _) as [[]|e]; reflexivity. }
  split; [reflexivity|]. split; [reflexivity|]. split; [exact Hplot|].
  intros Hok. unfold effects. rewrite Hplot, Hok. reflexivity.
Qed.

(** C9: with the RSI, Bollinger and MA(5) toggles on and the other
    moving-average toggles off, [plot_data] on a non-empty frame hands the
    renderer exactly three overlay descriptors (the RSI series on the panel
    named lower, then the upper and the lower band on panel 0, the main
    panel) and the moving-average list [[5]]: these are the parameters of
    the one call of the renderer, after which [plot_data] draws if the
    renderer returns and raises what the renderer raises otherwise. *)
Theorem plot_data_rsi_bbands_ma5 :
  forall (sym itv : string) (vol : bool) (row : Row) (rows : list Row),
    let self := mkStockApp sym itv vol true true true false false false in
    let data := row :: rows in
    exists (rsi : Series) (bbands : BBands) (params : plot_params),
      calculate_rsi (col_Close data) default_period = Ok rsi
      /\ calculate_bbands sqrtQ data default_window default_no_of_std
         = Ok bbands
      /\ plot_data sqrtQ mpf_plot self data []
         = after_render
             (mpf_plot params)
             [ClearCanvas; Enter "calculate_rsi"; Enter "calculate_bbands";
              MpfPlot params]
      /\ params
         = mkPlotParams data "candle" "charles" vol
             [mkAddplot rsi (PanelName "lower") "blue" (Some "RSI");
              mkAddplot (Upper bbands) (PanelId 0) "red" None;
              mkAddplot (Lower bbands) (PanelId 0) "red" None]
             true (10, 6)%nat (Some [5%nat])
      /\ pp_addplot params
         = [mkAddplot rsi (PanelName "lower") "blue" (Some "RSI");
            mkAddplot (Upper bbands) (PanelId 0) "red" None;
            mkAddplot (Lower bbands) (PanelId 0) "red" None]
      /\ length (pp_addplot params) = 3%nat
      /\ pp_mav params = Some [5%nat]
      /\ pp_volume params = vol.
Proof.
  intros sym itv vol row rows self data.
  destruct (calculate_rsi_default_ok (col_Close data)) as [rsi Hrsi].
  destruct (calculate_bbands_default_ok sqrtQ data) as [bb Hbb].
  exists rsi, bb.
  eexists.
  split; [exact Hrsi|]. split; [exact Hbb|].
  split; [|repeat split].
  unfold plot_data, get_indicators, bind, lift, emit, ret, after_render;
    simpl show_rsi; simpl show_bbands; cbv iota.
  rewrite Hrsi, Hbb. simpl.
  destruct (mpf_plot _) as [[]|e]; reflexivity.
Qed.

End Assembly.

(** ** Validation of the frame *)

Section Validation.

Variable sqrtQ : Q -> Q.
Variable history : string -> string -> result DataFrame.
Variable mpf_plot : plot_params -> result unit.

(** C8: [load_data], for a symbol that is not empty.  When the data source
    returns a frame without rows, the body of the [try] raises the
    no-data [ValueError] with an empty log (the canvas is untouched, no
    indicator function is entered, the renderer is not called) and
    [load_data] shows exactly that error.  When it returns a frame with at
    least one row, the no-data error is not raised: the body is the run of
    [plot_data] on that frame, it reaches the call of the renderer without
    an error dialog, and an exception of the body is one the renderer
    raised. *)
Theorem load_data_empty_series :
  forall self : StockApp,
    if (symbol_var self =? "")%string then
      load_data sqrtQ history mpf_plot self []
      = (Ok tt, [ShowWarning "Input Error" "Please enter a stock symbol."])
    else
      match history (symbol_var self) (interval_var self) with
      | Ok [] =>
          load_data_try sqrtQ history mpf_plot self []
          = (Raise no_data_error, [])
          /\ load_data sqrtQ history mpf_plot self []
             = (Ok tt, [ShowError "Error" "No data found for this symbol."])
      | Ok (row :: rows) =>
          exists params : plot_params,
            let pre := ClearCanvas :: entered self ++ [MpfPlot params] in
            pp_data params = row :: rows
            /\ load_data_try sqrtQ history mpf_plot self []
               = plot_data sqrtQ mpf_plot self (row :: rows) []
            /\ load_data_try sqrtQ history mpf_plot self []
               = after_render (mpf_plot params) pre
            /\ (forall title msg, ~ In (ShowError title msg) pre)
            /\ (forall e log,
                  load_data_try sqrtQ history mpf_plot self [] = (Raise e, log)
                  -> mpf_plot params = Raise e)
            /\ load_data sqrtQ history mpf_plot self []
               = match mpf_plot params with
                 | Ok _ => (Ok tt, pre ++ [DrawCanvas])
                 | Raise e => (Ok tt, pre ++ [ShowError "Error" (str e)])
                 end
      | Raise e =>
          load_data sqrtQ history mpf_plot self []
          = (Ok tt, [ShowError "Error" (str e)])
      end.
Proof.
  intros self. unfold load_data, load_data_try, try_except, bind, lift.
  destruct (symbol_var self =? "")%string; [reflexivity|].
  destruct (history (symbol_var self) (interval_var self)) as [[|row rows]|e];
    [split; reflexivity | | reflexivity].
  destruct (plot_data_run sqrtQ mpf_plot self (row :: rows))
    as [addplots [_ Hrun]].
  exists (mkPlotParams (row :: rows) "candle" "charles" (show_volume self)
                       addplots true (10, 6)%nat (get_mav self)).
  cbv zeta. cbv beta iota delta [empty]. rewrite Hrun.
  split; [reflexivity|]. split; [reflexivity|]. split; [reflexivity|].
  split; [apply no_error_before_render|]. split.
  - intros e log. unfold after_render.
    destruct (mpf_plot _) as [[]|e']; intros H.
    + discriminate H.
    + injection H as H _. rewrite H. reflexivity.
  - unfold after_render, emit. destruct (mpf_plot _) as [[]|e']; reflexivity.
Qed.

End Validation.

(** * Further properties

    The RSI for any period and with missing closes, the bands for any
    window, and the assembly of the plot. *)

(** ** The RSI for any period *)

Lemma nan_or_finite_of_bool (s : Series) :
  forallb is_nan_or_finite s = true -> Forall nan_or_finite s.
Proof.
  intros H. apply Forall_forall. intros v Hv.
  pose proof (proj1 (forallb_forall _ _) H v Hv) as Hb.
  destruct v; simpl in *; auto; discriminate.
Qed.

Lemma calculate_rsi_period (s : Series) (p : Z) :
  (1 <= p)%Z ->
  calculate_rsi s p
  = Ok (map rsi_of_rs
            (zip_with fdiv (mean (mkRolling (rsi_gain s) (Z.to_nat p) 1))
                           (mean (mkRolling (rsi_loss s) (Z.to_nat p) 1)))).
Proof.
  intros Hp.
  unfold calculate_rsi, rsi_avg_gain, rsi_avg_loss, rolling,
    validate_min_periods.
  replace (p <? 1)%Z with false by (symmetry; apply Z.ltb_ge; exact Hp).
  replace (p <? 0)%Z with false by (symmetry; apply Z.ltb_ge; lia).
  reflexivity.
Qed.

(** A period below 1 is below [min_periods = 1]: zero and the negative
    periods are refused alike. *)
Lemma calculate_rsi_period_low (s : Series) (p : Z) :
  (p <= 0)%Z ->
  calculate_rsi s p = Raise (ValueError "min_periods must be <= window").
Proof.
  intros Hp.
  unfold calculate_rsi, rsi_avg_gain, rsi_avg_loss, rolling,
    validate_min_periods.
  replace (p <? 1)%Z with true by (symmetry; apply Z.ltb_lt; lia).
  reflexivity.
Qed.

Lemma rsi_cells_period (s r : Series) (p : Z) :
  (1 <= p)%Z ->
  calculate_rsi s p = Ok r ->
  length r = length s
  /\ forall i, (i < length s)%nat ->
       cell r i
       = rsi_of_rs
           (fdiv (agg_mean 1 (window_at (Z.to_nat p) i (rsi_gain s)))
                 (agg_mean 1 (window_at (Z.to_nat p) i (rsi_loss s)))).
Proof.
  intros Hp. rewrite (calculate_rsi_period s Hp). intros Hr.
  apply Ok_inj in Hr. destruct Hr.
  assert (Lg : length (mean (mkRolling (rsi_gain s) (Z.to_nat p) 1))
               = length s)
    by (unfold mean; rewrite length_roll; apply length_rsi_gain).
  assert (Ll : length (mean (mkRolling (rsi_loss s) (Z.to_nat p) 1))
               = length s)
    by (unfold mean; rewrite length_roll; apply length_rsi_loss).
  split.
  - rewrite length_map, length_zip_with; congruence.
  - intros i Hi.
    rewrite cell_map by (rewrite length_zip_with; congruence).
    rewrite cell_zip_with by congruence.
    unfold mean.
    rewrite !cell_roll
      by (simpl r_obj; rewrite ?length_rsi_gain, ?length_rsi_loss; exact Hi).
    reflexivity.
Qed.

Lemma rsi_first_cell_period (s r : Series) (p : Z) :
  (1 <= p)%Z -> calculate_rsi s p = Ok r -> cell r 0 = NaN.
Proof.
  intros Hp Hr. destruct (@rsi_cells_period s r p Hp Hr) as [Hlen Hcells].
  destruct s as [|x t].
  - apply cell_overflow. rewrite Hlen. simpl. lia.
  - rewrite Hcells by (simpl; lia).
    destruct (Z.to_nat p) as [|n] eqn:Hn; [lia|]. reflexivity.
Qed.

(** Differences of cells that are numbers or missing are numbers or missing. *)
Lemma diff_from_nan_or_finite (prev : fval) (s : Series) :
  nan_or_finite prev -> Forall nan_or_finite s ->
  Forall nan_or_finite (diff_from prev s).
Proof.
  intros Hp Hs. revert prev Hp.
  induction Hs as [|x t Hx Ht IH]; intros prev Hp; simpl; constructor.
  - destruct x, prev; simpl in *; auto.
  - apply IH. exact Hx.
Qed.

Lemma diff_nan_or_finite (s : Series) :
  Forall nan_or_finite s -> Forall nan_or_finite (diff s).
Proof.
  intros Hs. destruct Hs as [|x t Hx Ht]; simpl; constructor; [exact I|].
  apply diff_from_nan_or_finite; assumption.
Qed.

Lemma gain_cell_nonneg (v : fval) :
  nan_or_finite v -> fin_nonneg (if fgt0 v then v else Fin 0).
Proof.
  destruct v as [| | |q]; cbn [nan_or_finite fgt0 fin_nonneg]; try contradiction;
    intros _; [lra|].
  destruct (Qsign q) eqn:Hq; cbn [fin_nonneg]; try lra.
  apply (proj1 (Qsign_Gt q)) in Hq. lra.
Qed.

Lemma loss_cell_nonneg (v : fval) :
  nan_or_finite v -> fin_nonneg (fneg (if flt0 v then v else Fin 0)).
Proof.
  destruct v as [| | |q]; cbn [nan_or_finite flt0 fneg fin_nonneg];
    try contradiction; intros _; [lra|].
  destruct (Qsign q) eqn:Hq; cbn [fin_nonneg fneg]; try lra.
  apply (proj1 (Qsign_Lt q)) in Hq. lra.
Qed.

Lemma rsi_gain_nonneg_series (s : Series) :
  Forall nan_or_finite s -> Forall fin_nonneg (rsi_gain s).
Proof.
  intros Hs. unfold rsi_gain, rsi_delta, where_. apply Forall_map.
  eapply Forall_impl; [apply gain_cell_nonneg | apply diff_nan_or_finite, Hs].
Qed.

Lemma rsi_loss_nonneg_series (s : Series) :
  Forall nan_or_finite s -> Forall fin_nonneg (rsi_loss s).
Proof.
  intros Hs. unfold rsi_loss, series_neg, rsi_delta, where_. rewrite map_map.
  apply Forall_map.
  eapply Forall_impl; [apply loss_cell_nonneg | apply diff_nan_or_finite, Hs].
Qed.

Lemma agg_mean_window_period (s : Series) (p i : nat) :
  Forall fin_nonneg s -> (i < length s)%nat -> (1 <= p)%nat ->
  let win := window_at p i s in
  let n := Nat.min (S i) p in
  (0 < n)%nat /\ length win = n
  /\ agg_mean 1 win = Fin (window_sum win / inject_Z (Z.of_nat n))
  /\ 0 <= window_sum win.
Proof.
  intros Hs Hi Hp win n.
  assert (Hlen : length win = n) by (apply length_window_at; exact Hi).
  assert (Hn : (0 < n)%nat) by (unfold n; lia).
  assert (Hwin : Forall fin_nonneg win) by (apply Forall_window_at; exact Hs).
  assert (Hfin : Forall finite win)
    by (eapply Forall_impl; [apply fin_nonneg_finite | exact Hwin]).
  split; [exact Hn|]. split; [exact Hlen|]. split.
  - rewrite agg_mean_finite; [rewrite Hlen; reflexivity | exact Hfin | lia | lia].
  - apply Qsum_nonneg; exact Hwin.
Qed.

Lemma is_value_eq (v : fval) (a b : Q) : is_value v a -> a == b -> is_value v b.
Proof. destruct v; simpl; try contradiction. intros H1 H2. rewrite H1. exact H2. Qed.

Lemma rsi_cell_pos_loss_value (g l : Q) :
  0 <= g -> 0 < l ->
  rsi_of_rs (fdiv (Fin g) (Fin l)) = Fin (100 - 100 / (1 + g / l)).
Proof.
  intros Hg Hl.
  assert (Hrs : 0 <= g / l) by (apply Qle_shift_div_l; lra).
  assert (Hden : 0 < 1 + g / l) by lra.
  assert (Hrs' : fdiv (Fin g) (Fin l) = Fin (g / l))
    by (unfold fdiv; rewrite (proj2 (Qsign_Gt l) Hl); reflexivity).
  rewrite Hrs'. unfold rsi_of_rs, fadd, fdiv.
  rewrite (proj2 (Qsign_Gt _) Hden). reflexivity.
Qed.

(** The cell of the RSI from the two window sums: the number of cells of the
    window cancels. *)
Lemma rsi_cell_of_sums (sg sl : Q) (n : nat) :
  0 <= sg -> 0 <= sl -> (0 < n)%nat ->
  let c := rsi_of_rs (fdiv (Fin (sg / inject_Z (Z.of_nat n)))
                           (Fin (sl / inject_Z (Z.of_nat n)))) in
  if Qeq_bool (sg + sl) 0 then c = NaN
  else is_value c (100 * sg / (sg + sl)).
Proof.
  intros Hsg Hsl Hn c. subst c.
  set (k := inject_Z (Z.of_nat n)).
  assert (Hk : 0 < k) by (apply Qsign_Gt, Qsign_of_nat, Hn).
  assert (Hg : 0 <= sg / k) by (apply Qle_shift_div_l; lra).
  destruct (Qlt_le_dec 0 sl) as [Hpos|Hle].
  - assert (Hl : 0 < sl / k) by (apply Qlt_shift_div_l; lra).
    rewrite (rsi_cell_pos_loss_value Hg Hl).
    destruct (Qeq_bool (sg + sl) 0) eqn:Hz.
    + apply Qeq_bool_eq in Hz. lra.
    + simpl. field. repeat split; lra.
  - assert (Hsl0 : sl == 0) by lra.
    assert (Hl0 : sl / k == 0) by (rewrite Hsl0; field; lra).
    destruct (Qlt_le_dec 0 sg) as [Hgpos|Hgle].
    + assert (Hg' : 0 < sg / k) by (apply Qlt_shift_div_l; lra).
      destruct (Qeq_bool (sg + sl) 0) eqn:Hz.
      * apply Qeq_bool_eq in Hz. lra.
      * eapply is_value_eq.
        -- apply rsi_cell_zero_loss; [discriminate | simpl; lra | exact Hl0].
        -- rewrite Hsl0. field. lra.
    + assert (Hsg0 : sg == 0) by lra.
      assert (Hg0 : sg / k == 0) by (rewrite Hsg0; field; lra).
      destruct (Qeq_bool (sg + sl) 0) eqn:Hz.
      * apply rsi_cell_zero_zero; assumption.
      * apply Qeq_bool_neq in Hz. exfalso. apply Hz. lra.
Qed.

(** X1: [calculate_rsi] raises, a [ValueError], exactly when the period is
    below 1 (zero or negative: the window object refuses one observation in
    a window of fewer).  For every period of at least 1 and every series, it
    returns a series of the same length whose first cell is undefined. *)
Theorem calculate_rsi_raises_below_period_one :
  forall (s : Series) (p : Z),
    match calculate_rsi s p with
    | Raise (ValueError _) => (p <= 0)%Z
    | Raise (OtherError _ _) => False
    | Ok r => (1 <= p)%Z /\ length r = length s /\ cell r 0 = NaN
    end.
Proof.
  intros s p. destruct (Z_le_gt_dec p 0) as [Hlow|Hhigh].
  - rewrite (calculate_rsi_period_low s Hlow). exact Hlow.
  - assert (Hp : (1 <= p)%Z) by lia.
    pose proof (calculate_rsi_period s Hp) as Hr.
    rewrite Hr.
    destruct (@rsi_cells_period s _ p Hp Hr) as [Hlen _].
    split; [exact Hp|]. split; [exact Hlen|].
    exact (@rsi_first_cell_period s _ p Hp Hr).
Qed.

(** Sums of the gain and loss windows of a series with missing prices. *)
Lemma rsi_cell_by_sums (s r : Series) (p : Z) (i : nat) :
  Forall nan_or_finite s -> (1 <= p)%Z ->
  calculate_rsi s p = Ok r -> (i < length s)%nat ->
  let sg := window_sum (window_at (Z.to_nat p) i (rsi_gain s)) in
  let sl := window_sum (window_at (Z.to_nat p) i (rsi_loss s)) in
  0 <= sg /\ 0 <= sl
  /\ if Qeq_bool (sg + sl) 0 then cell r i = NaN
     else is_value (cell r i) (100 * sg / (sg + sl)).
Proof.
  intros Hs Hp Hr Hi sg sl.
  destruct (@rsi_cells_period s r p Hp Hr) as [_ Hcells].
  rewrite (Hcells i Hi).
  assert (Hig : (i < length (rsi_gain s))%nat)
    by (rewrite length_rsi_gain; exact Hi).
  assert (Hil : (i < length (rsi_loss s))%nat)
    by (rewrite length_rsi_loss; exact Hi).
  assert (Hp' : (1 <= Z.to_nat p)%nat) by lia.
  destruct (agg_mean_window_period (rsi_gain_nonneg_series Hs) Hig Hp')
    as [Hn [_ [Mg Ng]]].
  destruct (agg_mean_window_period (rsi_loss_nonneg_series Hs) Hil Hp')
    as [_ [_ [Ml Nl]]].
  rewrite Mg, Ml.
  split; [exact Ng|]. split; [exact Nl|].
  exact (rsi_cell_of_sums Ng Nl Hn).
Qed.

(** X2: for a series of numbers and missing cells and a period of at least
    1, the RSI at an index is decided by the sums of the gain and of the loss
    window, which are not negative: it is undefined when both sums are zero,
    and otherwise it is [100 * gains / (gains + losses)].  The number of
    cells of the window cancels. *)
Theorem rsi_ratio_of_window_sums :
  forall (s r : Series) (p : Z) (i : nat),
    forallb is_nan_or_finite s = true ->
    (1 <= p)%Z ->
    calculate_rsi s p = Ok r ->
    (i < length s)%nat ->
    let sg := window_sum (window_at (Z.to_nat p) i (rsi_gain s)) in
    let sl := window_sum (window_at (Z.to_nat p) i (rsi_loss s)) in
    0 <= sg /\ 0 <= sl
    /\ if Qeq_bool (sg + sl) 0 then cell r i = NaN
       else is_value (cell r i) (100 * sg / (sg + sl)).
Proof.
  intros s r p i Hs Hp Hr Hi.
  exact (rsi_cell_by_sums (nan_or_finite_of_bool s Hs) Hp Hr Hi).
Qed.

(** Closes 10, 12, 11, 11, 14 at index 2: gains 2, losses 1, RSI 200/3. *)
Lemma rsi_ratio_of_window_sums_witness :
  forallb is_nan_or_finite (prices [10; 12; 11; 11; 14]) = true
  /\ (1 <= 14)%Z
  /\ calculate_rsi (prices [10; 12; 11; 11; 14]) 14%Z
     = Ok [NaN; Fin 100; Fin (600 # 9); Fin (800 # 12); Fin (2500 # 30)]
  /\ (2 < length (prices [10; 12; 11; 11; 14]%Q))%nat
  /\ window_sum (window_at (Z.to_nat 14) 2
                           (rsi_gain (prices [10; 12; 11; 11; 14]))) == 2
  /\ window_sum (window_at (Z.to_nat 14) 2
                           (rsi_loss (prices [10; 12; 11; 11; 14]))) == 1
  /\ is_value (cell [NaN; Fin 100; Fin (600 # 9); Fin (800 # 12);
                     Fin (2500 # 30)] 2) (200 # 3).
Proof.
  assert (H1 : forallb is_nan_or_finite (prices [10; 12; 11; 11; 14]) = true)
    by reflexivity.
  assert (H2 : (1 <= 14)%Z) by lia.
  assert (H3 : calculate_rsi (prices [10; 12; 11; 11; 14]) 14%Z
               = Ok [NaN; Fin 100; Fin (600 # 9); Fin (800 # 12);
                     Fin (2500 # 30)]) by (vm_compute; reflexivity).
  assert (H4 : (2 < length (prices [10; 12; 11; 11; 14]%Q))%nat)
    by (simpl; lia).
  split; [exact H1|]. split; [exact H2|]. split; [exact H3|].
  split; [exact H4|].
  split; [vm_compute; reflexivity|]. split; [vm_compute; reflexivity|].
  pose proof (@rsi_ratio_of_window_sums _ _ _ _ H1 H2 H3 H4) as H.
  cbv zeta in H. destruct H as [_ [_ H]]. vm_compute in H. vm_compute. exact H.
Defined.

(** X3: for every period of at least 1 and every series of numbers and
    missing cells, every cell of the RSI is undefined or a number between 0
    and 100.  A missing close counts as no gain and no loss. *)
Theorem rsi_bounded_any_period :
  forall (s : Series) (p : Z),
    forallb is_nan_or_finite s = true ->
    (1 <= p)%Z ->
    exists r : Series,
      calculate_rsi s p = Ok r
      /\ forall i : nat,
           match cell r i with
           | NaN => True
           | Fin x => 0 <= x /\ x <= 100
           | PInf | NInf => False
           end.
Proof.
  intros s p Hs Hp.
  pose proof (calculate_rsi_period s Hp) as Hr.
  eexists. split; [exact Hr|]. intros i.
  destruct (Nat.lt_ge_cases i (length s)) as [Hi|Hi].
  - destruct (rsi_cell_by_sums (nan_or_finite_of_bool s Hs) Hp Hr Hi)
      as [Ng [Nl Hc]].
    set (sg := window_sum (window_at (Z.to_nat p) i (rsi_gain s))) in *.
    set (sl := window_sum (window_at (Z.to_nat p) i (rsi_loss s))) in *.
    destruct (Qeq_bool (sg + sl) 0) eqn:Hz.
    + rewrite Hc. exact I.
    + apply Qeq_bool_neq in Hz.
      match goal with |- match ?c with _ => _ end => destruct c as [| | |x] end;
        try contradiction.
      simpl in Hc. rewrite Hc.
      assert (Hpos : 0 < sg + sl) by lra.
      split.
      * apply Qle_shift_div_l; lra.
      * apply Qle_shift_div_r; lra.
  - rewrite cell_overflow; [exact I|].
    destruct (@rsi_cells_period s _ p Hp Hr) as [Hlen _]. rewrite Hlen. exact Hi.
Qed.

(** A series with a missing close, period 3. *)
Lemma rsi_bounded_any_period_witness :
  forallb is_nan_or_finite [Fin 1; NaN; Fin 3; Fin 2] = true
  /\ (1 <= 3)%Z
  /\ exists r : Series,
       calculate_rsi [Fin 1; NaN; Fin 3; Fin 2] 3%Z = Ok r
       /\ forall i : nat,
            match cell r i with
            | NaN => True
            | Fin x => 0 <= x /\ x <= 100
            | PInf | NInf => False
            end.
Proof.
  split; [reflexivity|]. split; [lia|].
  apply (@rsi_bounded_any_period [Fin 1; NaN; Fin 3; Fin 2] 3%Z);
    [reflexivity | lia].
Defined.

Lemma rsi_of_rs_finite (z : Q) :
  -1 < z -> rsi_of_rs (Fin z) = Fin (100 - 100 / (1 + z)).
Proof.
  intros Hz. unfold rsi_of_rs, fadd, fdiv.
  rewrite (proj2 (Qsign_Gt (1 + z))) by lra. reflexivity.
Qed.

Lemma fdiv_zero_num (g : Q) (b : fval) :
  g == 0 -> b <> NaN -> ~ is_value b 0 ->
  exists z, fdiv (Fin g) b = Fin z /\ z == 0.
Proof.
  intros Hg Hb Hnz. destruct b as [| | |l]; [congruence | | |].
  - exists 0. split; reflexivity.
  - exists 0. split; reflexivity.
  - simpl. destruct (Qsign l) eqn:Hl.
    + exfalso. apply Hnz. simpl. apply Qsign_Eq. exact Hl.
    + exists (g / l). split; [reflexivity|].
      apply (proj1 (Qsign_Lt l)) in Hl. rewrite Hg. field. lra.
    + exists (g / l). split; [reflexivity|].
      apply (proj1 (Qsign_Gt l)) in Hl. rewrite Hg. field. lra.
Qed.

(** X4: at every index where the average gain is zero and the average loss
    is a value other than zero, the RSI is exactly 0. *)
Theorem rsi_zero_without_gain :
  forall (s r ag al : Series) (i : nat),
    calculate_rsi s default_period = Ok r ->
    rsi_avg_gain s default_period = Ok ag ->
    rsi_avg_loss s default_period = Ok al ->
    is_value (cell ag i) 0 ->
    cell al i <> NaN ->
    ~ is_value (cell al i) 0 ->
    is_value (cell r i) 0.
Proof.
  intros s r ag al i Hr Hag Hal Hg Hl Hlnz.
  destruct (calculate_rsi_cells Hr Hag Hal) as [_ [Lag [_ Hcells]]].
  assert (Hi : (i < length s)%nat).
  { destruct (Nat.lt_ge_cases i (length s)) as [H|H]; [exact H|].
    rewrite cell_overflow in Hg by lia. contradiction. }
  destruct (Hcells i Hi) as [Hri _]. rewrite Hri.
  destruct (cell ag i) as [| | |g]; try contradiction. simpl in Hg.
  destruct (fdiv_zero_num Hg Hl Hlnz) as [z [Hz Hz0]].
  rewrite Hz, rsi_of_rs_finite by lra.
  simpl. rewrite Hz0. field.
Qed.

(** The falling series 3, 1 at its second index. *)
Lemma rsi_zero_without_gain_witness :
  calculate_rsi (prices [3; 1]) default_period = Ok [NaN; Fin (0 # 4)]
  /\ rsi_avg_gain (prices [3; 1]) default_period = Ok [Fin 0; Fin (0 # 2)]
  /\ rsi_avg_loss (prices [3; 1]) default_period = Ok [Fin 0; Fin (2 # 2)]
  /\ is_value (cell [Fin 0; Fin (0 # 2)] 1) 0
  /\ cell [Fin 0; Fin (2 # 2)] 1 <> NaN
  /\ ~ is_value (cell [Fin 0; Fin (2 # 2)] 1) 0
  /\ is_value (cell [NaN; Fin (0 # 4)] 1) 0.
Proof.
  assert (Hr : calculate_rsi (prices [3; 1]) default_period
               = Ok [NaN; Fin (0 # 4)]) by (vm_compute; reflexivity).
  assert (Hg : rsi_avg_gain (prices [3; 1]) default_period
               = Ok [Fin 0; Fin (0 # 2)]) by (vm_compute; reflexivity).
  assert (Hl : rsi_avg_loss (prices [3; 1]) default_period
               = Ok [Fin 0; Fin (2 # 2)]) by (vm_compute; reflexivity).
  assert (Hz : is_value (cell [Fin 0; Fin (0 # 2)] 1) 0)
    by (vm_compute; reflexivity).
  assert (Hn : cell [Fin 0; Fin (2 # 2)] 1 <> NaN) by (simpl; discriminate).
  assert (Hnz : ~ is_value (cell [Fin 0; Fin (2 # 2)] 1) 0)
    by (vm_compute; discriminate).
  split; [exact Hr|]. split; [exact Hg|]. split; [exact Hl|].
  split; [exact Hz|]. split; [exact Hn|]. split; [exact Hnz|].
  exact (@rsi_zero_without_gain _ _ _ _ 1%nat Hr Hg Hl Hz Hn Hnz).
Defined.

(** X5: at every index where the average gain equals the average loss and
    they are not zero, the RSI is exactly 50. *)
Theorem rsi_fifty_when_balanced :
  forall (s r ag al : Series) (i : nat) (g l : Q),
    calculate_rsi s default_period = Ok r ->
    rsi_avg_gain s default_period = Ok ag ->
    rsi_avg_loss s default_period = Ok al ->
    cell ag i = Fin g ->
    cell al i = Fin l ->
    g == l ->
    ~ l == 0 ->
    is_value (cell r i) 50.
Proof.
  intros s r ag al i g l Hr Hag Hal Hg Hl Hgl Hlnz.
  destruct (calculate_rsi_cells Hr Hag Hal) as [_ [Lag [_ Hcells]]].
  assert (Hi : (i < length s)%nat).
  { destruct (Nat.lt_ge_cases i (length s)) as [H|H]; [exact H|].
    rewrite cell_overflow in Hg by lia. discriminate. }
  destruct (Hcells i Hi) as [Hri _]. rewrite Hri, Hg, Hl.
  assert (Hq : g / l == 1) by (rewrite Hgl; field; exact Hlnz).
  assert (Hd : fdiv (Fin g) (Fin l) = Fin (g / l)).
  { unfold fdiv. destruct (Qsign l) eqn:Hs; try reflexivity.
    exfalso. apply Hlnz. apply Qsign_Eq. exact Hs. }
  rewrite Hd, rsi_of_rs_finite by lra.
  simpl. rewrite Hq. reflexivity.
Qed.

(** Closes 1, 3, 1 at index 2: one gain of 2 and one loss of 2. *)
Lemma rsi_fifty_when_balanced_witness :
  calculate_rsi (prices [1; 3; 1]) default_period
  = Ok [NaN; Fin 100; Fin (600 # 12)]
  /\ rsi_avg_gain (prices [1; 3; 1]) default_period
     = Ok [Fin 0; Fin (2 # 2); Fin (2 # 3)]
  /\ rsi_avg_loss (prices [1; 3; 1]) default_period
     = Ok [Fin 0; Fin (0 # 2); Fin (2 # 3)]
  /\ (2 # 3) == (2 # 3) /\ ~ (2 # 3) == 0
  /\ is_value (cell [NaN; Fin 100; Fin (600 # 12)] 2) 50.
Proof.
  assert (Hr : calculate_rsi (prices [1; 3; 1]) default_period
               = Ok [NaN; Fin 100; Fin (600 # 12)]) by (vm_compute; reflexivity).
  assert (Hg : rsi_avg_gain (prices [1; 3; 1]) default_period
               = Ok [Fin 0; Fin (2 # 2); Fin (2 # 3)])
    by (vm_compute; reflexivity).
  assert (Hl : rsi_avg_loss (prices [1; 3; 1]) default_period
               = Ok [Fin 0; Fin (0 # 2); Fin (2 # 3)])
    by (vm_compute; reflexivity).
  assert (He : (2 # 3) == (2 # 3)) by reflexivity.
  assert (Hnz : ~ (2 # 3) == 0) by (vm_compute; discriminate).
  split; [exact Hr|]. split; [exact Hg|]. split; [exact Hl|].
  split; [exact He|]. split; [exact Hnz|].
  exact (@rsi_fifty_when_balanced _ _ _ _ 2%nat (2 # 3) (2 # 3)
           Hr Hg Hl eq_refl eq_refl He Hnz).
Defined.

(** ** Windows: membership and sums *)

Lemma In_window_at (s : Series) (p i j : nat) :
  (i < length s)%nat -> (S i - p <= j)%nat -> (j <= i)%nat ->
  In (cell s j) (window_at p i s).
Proof.
  intros Hi Hlo Hhi. unfold window_at, cell.
  set (k := (S i - p)%nat) in *.
  assert (Hnth : nth (j - k) (skipn k (firstn (S i) s)) NaN = nth j s NaN).
  { rewrite nth_skipn, nth_firstn.
    replace (k + (j - k))%nat with j by lia.
    replace (j <? S i)%nat with true by (symmetry; apply Nat.ltb_lt; lia).
    reflexivity. }
  rewrite <- Hnth. apply nth_In.
  rewrite length_skipn, length_firstn. lia.
Qed.

Lemma window_sum_zero (win : Series) :
  Forall fin_zero win -> window_sum win == 0.
Proof.
  unfold window_sum, Qsum.
  induction 1 as [|x l Hx Hl IH]; simpl; [reflexivity|].
  destruct x; try contradiction. simpl in *. unfold fin_zero in Hx. simpl in Hx.
  rewrite Hx, IH. reflexivity.
Qed.

Lemma window_sum_pos (win : Series) (v : fval) :
  Forall fin_nonneg win -> In v win -> fin_pos v -> 0 < window_sum win.
Proof.
  unfold window_sum. intros Hwin. revert v.
  induction Hwin as [|x l Hx Hl IH]; intros v Hin Hv; [contradiction|].
  pose proof (Qsum_nonneg Hl) as Hrest.
  destruct x as [| | |q]; try contradiction. simpl in *.
  destruct Hin as [<-|Hin].
  - simpl in Hv. lra.
  - specialize (IH v Hin Hv). lra.
Qed.

(** ** Series that move in one direction *)

Lemma trend_diff (dir : comparison) (c : Q) (t : list Q) :
  trend_from dir c t = true ->
  Forall (fin_sign dir) (diff_from (Fin c) (prices t)).
Proof.
  revert c. induction t as [|x t IH]; intros c H; simpl; constructor.
  - simpl in H. apply andb_prop in H. destruct H as [H _].
    simpl. change (x + - c) with (x - c).
    destruct (Qsign (x - c)), dir; simpl in H; try discriminate; reflexivity.
  - apply IH. simpl in H. apply andb_prop in H. tauto.
Qed.

Lemma prices_nan_or_finite (cs : list Q) : Forall nan_or_finite (prices cs).
Proof. unfold prices. apply Forall_map, Forall_forall. intros x _. exact I. Qed.

Lemma gain_cell_of_sign (dir : comparison) (v : fval) :
  fin_sign dir v -> gain_like dir (if fgt0 v then v else Fin 0).
Proof.
  destruct v as [| | |q]; simpl; try contradiction. intros Hq.
  rewrite Hq. destruct dir; simpl; unfold fin_zero; simpl; try reflexivity.
  apply (proj1 (Qsign_Gt q)) in Hq. exact Hq.
Qed.

Lemma loss_cell_of_sign (dir : comparison) (v : fval) :
  fin_sign dir v -> loss_like dir (fneg (if flt0 v then v else Fin 0)).
Proof.
  destruct v as [| | |q]; simpl; try contradiction. intros Hq.
  rewrite Hq. destruct dir; cbn [loss_like fneg fin_pos]; unfold fin_zero;
    cbn [is_value]; try reflexivity.
  apply (proj1 (Qsign_Lt q)) in Hq. lra.
Qed.

Lemma trend_gain (dir : comparison) (c : Q) (t : list Q) :
  trend_from dir c t = true ->
  exists gs, rsi_gain (prices (c :: t)) = Fin 0 :: gs
             /\ Forall (gain_like dir) gs.
Proof.
  intros H.
  exists (map (fun v => if fgt0 v then v else Fin 0)
              (diff_from (Fin c) (prices t))).
  split; [reflexivity|].
  apply Forall_map. eapply Forall_impl; [apply gain_cell_of_sign|].
  apply trend_diff. exact H.
Qed.

Lemma trend_loss (dir : comparison) (c : Q) (t : list Q) :
  trend_from dir c t = true ->
  exists ls, rsi_loss (prices (c :: t)) = Fin (- 0) :: ls
             /\ Forall (loss_like dir) ls.
Proof.
  intros H.
  exists (map (fun v => fneg (if flt0 v then v else Fin 0))
              (diff_from (Fin c) (prices t))).
  split.
  - unfold rsi_loss, series_neg, where_, rsi_delta. simpl.
    rewrite map_map. reflexivity.
  - apply Forall_map. eapply Forall_impl; [apply loss_cell_of_sign|].
    apply trend_diff. exact H.
Qed.

Lemma cell_tail_Forall (P : fval -> Prop) (x : fval) (l : Series) (i : nat) :
  Forall P l -> (1 <= i)%nat -> (i < length (x :: l))%nat -> P (cell (x :: l) i).
Proof.
  intros Hl H1 Hi. destruct i as [|j]; [lia|]. unfold cell. simpl.
  apply (proj1 (Forall_forall P l) Hl). apply nth_In. simpl in Hi. lia.
Qed.

Lemma like_zero_window (P : fval -> Prop) (x : fval) (l : Series) (p i : nat) :
  (forall v, P v -> fin_zero v) -> fin_zero x -> Forall P l ->
  window_sum (window_at p i (x :: l)) == 0.
Proof.
  intros HP Hx Hl. apply window_sum_zero, Forall_window_at.
  constructor; [exact Hx|]. eapply Forall_impl; [exact HP | exact Hl].
Qed.

Lemma like_pos_window (P : fval -> Prop) (s : Series) (x : fval) (l : Series)
      (p i : nat) :
  (forall v, P v -> fin_pos v) -> s = x :: l -> Forall fin_nonneg s ->
  Forall P l -> (1 <= p)%nat -> (1 <= i)%nat -> (i < length s)%nat ->
  0 < window_sum (window_at p i s).
Proof.
  intros HP Hs Hnn Hl Hp H1 Hi.
  apply window_sum_pos with (v := cell s i).
  - apply Forall_window_at. exact Hnn.
  - apply In_window_at; [exact Hi | lia | lia].
  - apply HP. subst s. apply cell_tail_Forall; assumption.
Qed.

(** X6: on finite closes whose every step has the same sign, with a period
    of at least 1, the RSI at every index after the first is 100 when the
    closes rise, 0 when they fall, and undefined when they stay equal. *)
Theorem rsi_of_trend :
  forall (dir : comparison) (cs : list Q) (p : Z),
    trend dir cs = true ->
    (1 <= p)%Z ->
    exists r : Series,
      calculate_rsi (prices cs) p = Ok r
      /\ forall i : nat, (1 <= i)%nat -> (i < length cs)%nat ->
           match dir with
           | Gt => is_value (cell r i) 100
           | Lt => is_value (cell r i) 0
           | Eq => cell r i = NaN
           end.
Proof.
  intros dir cs p Htrend Hp.
  pose proof (calculate_rsi_period (prices cs) Hp) as Hr.
  eexists. split; [exact Hr|]. intros i H1 Hi.
  destruct cs as [|c t]; [simpl in Hi; lia|].
  simpl in Htrend.
  assert (Hi' : (i < length (prices (c :: t)))%nat)
    by (unfold prices; rewrite length_map; exact Hi).
  destruct (rsi_cell_by_sums (prices_nan_or_finite (c :: t)) Hp Hr Hi')
    as [Ng [Nl Hc]].
  destruct (trend_gain dir c t Htrend) as [gs [Eg Hgs]].
  destruct (trend_loss dir c t Htrend) as [ls [El Hls]].
  pose proof (rsi_gain_nonneg_series (prices_nan_or_finite (c :: t))) as Gnn.
  pose proof (rsi_loss_nonneg_series (prices_nan_or_finite (c :: t))) as Lnn.
  assert (Hig : (i < length (rsi_gain (prices (c :: t))))%nat)
    by (rewrite length_rsi_gain; exact Hi').
  assert (Hil : (i < length (rsi_loss (prices (c :: t))))%nat)
    by (rewrite length_rsi_loss; exact Hi').
  assert (Z0 : fin_zero (Fin 0)) by (unfold fin_zero; simpl; reflexivity).
  assert (Z0' : fin_zero (Fin (- 0))) by (unfold fin_zero; simpl; reflexivity).
  assert (Hp' : (1 <= Z.to_nat p)%nat) by lia.
  set (sg := window_sum (window_at (Z.to_nat p) i
                                   (rsi_gain (prices (c :: t))))) in *.
  set (sl := window_sum (window_at (Z.to_nat p) i
                                   (rsi_loss (prices (c :: t))))) in *.
  destruct dir.
  - (* flat *)
    assert (Hsg : sg == 0)
      by (unfold sg; rewrite Eg; apply like_zero_window with (P := gain_like Eq);
          [intros v Hv; exact Hv | exact Z0 | exact Hgs]).
    assert (Hsl : sl == 0)
      by (unfold sl; rewrite El; apply like_zero_window with (P := loss_like Eq);
          [intros v Hv; exact Hv | exact Z0' | exact Hls]).
    replace (Qeq_bool (sg + sl) 0) with true in Hc
      by (symmetry; apply Qeq_bool_iff; lra).
    exact Hc.
  - (* falling *)
    assert (Hsg : sg == 0)
      by (unfold sg; rewrite Eg; apply like_zero_window with (P := gain_like Lt);
          [intros v Hv; exact Hv | exact Z0 | exact Hgs]).
    assert (Hsl : 0 < sl)
      by (unfold sl;
          apply like_pos_window with (P := loss_like Lt) (x := Fin (- 0)) (l := ls);
          [intros v Hv; exact Hv | exact El | exact Lnn | exact Hls
           | exact Hp' | exact H1 | exact Hil]).
    destruct (Qeq_bool (sg + sl) 0) eqn:Hz.
    + apply Qeq_bool_eq in Hz. lra.
    + eapply is_value_eq; [exact Hc|]. rewrite Hsg. field. lra.
  - (* rising *)
    assert (Hsl : sl == 0)
      by (unfold sl; rewrite El; apply like_zero_window with (P := loss_like Gt);
          [intros v Hv; exact Hv | exact Z0' | exact Hls]).
    assert (Hsg : 0 < sg)
      by (unfold sg;
          apply like_pos_window with (P := gain_like Gt) (x := Fin 0) (l := gs);
          [intros v Hv; exact Hv | exact Eg | exact Gnn | exact Hgs
           | exact Hp' | exact H1 | exact Hig]).
    destruct (Qeq_bool (sg + sl) 0) eqn:Hz.
    + apply Qeq_bool_eq in Hz. lra.
    + eapply is_value_eq; [exact Hc|]. rewrite Hsl. field. lra.
Qed.

(** The rising closes 1, 2, 4 with the period 14. *)
Lemma rsi_of_trend_witness :
  trend Gt [1; 2; 4] = true
  /\ (1 <= 14)%Z
  /\ exists r : Series,
       calculate_rsi (prices [1; 2; 4]) 14%Z = Ok r
       /\ forall i : nat, (1 <= i)%nat -> (i < length [1; 2; 4]%Q)%nat ->
            is_value (cell r i) 100.
Proof.
  split; [reflexivity|]. split; [lia|].
  apply (@rsi_of_trend Gt [1; 2; 4] 14%Z); [reflexivity | lia].
Defined.

(** ** Bollinger bands for any window *)

Section BandsAnyWindow.

Variable sqrtQ : Q -> Q.

Lemma calculate_bbands_window (data : DataFrame) (w : Z) (k : Q) :
  (0 <= w)%Z ->
  calculate_bbands sqrtQ data w k
  = Ok (mkBBands
          (zip_with fadd
             (mean (mkRolling (col_Close data) (Z.to_nat w) (Z.to_nat w)))
             (map (fun v => fmul v (Fin k))
                  (std sqrtQ
                       (mkRolling (col_Close data) (Z.to_nat w) (Z.to_nat w)))))
          (zip_with fsub
             (mean (mkRolling (col_Close data) (Z.to_nat w) (Z.to_nat w)))
             (map (fun v => fmul v (Fin k))
                  (std sqrtQ
                       (mkRolling (col_Close data) (Z.to_nat w)
                                  (Z.to_nat w)))))).
Proof.
  intros Hw. unfold calculate_bbands, rolling, validate_min_periods.
  cbn [rbind].
  replace (w <? 0)%Z with false by (symmetry; apply Z.ltb_ge; exact Hw).
  reflexivity.
Qed.

Lemma calculate_bbands_negative_window (data : DataFrame) (w : Z) (k : Q) :
  (w < 0)%Z ->
  calculate_bbands sqrtQ data w k
  = Raise (ValueError "window must be an integer 0 or greater").
Proof.
  intros Hw. unfold calculate_bbands, rolling, validate_min_periods.
  cbn [rbind].
  replace (w <? 0)%Z with true by (symmetry; apply Z.ltb_lt; exact Hw).
  reflexivity.
Qed.

Lemma calculate_bbands_ok_window (data : DataFrame) (w : Z) (k : Q)
      (b : BBands) :
  calculate_bbands sqrtQ data w k = Ok b -> (0 <= w)%Z.
Proof.
  intros Hb. destruct (Z_lt_ge_dec w 0) as [Hneg|Hnn]; [|lia].
  rewrite (@calculate_bbands_negative_window data w k Hneg) in Hb. discriminate.
Qed.

Lemma calculate_bbands_window_cells (data : DataFrame) (w : Z) (k : Q)
      (b : BBands) :
  calculate_bbands sqrtQ data w k = Ok b ->
  length (Upper b) = length data /\ length (Lower b) = length data
  /\ forall i, (i < length data)%nat ->
       let win := window_at (Z.to_nat w) i (col_Close data) in
       let m := agg_mean (Z.to_nat w) win in
       let sd := fsqrt sqrtQ (agg_var (Z.to_nat w) 1 win) in
       cell (Upper b) i = fadd m (fmul sd (Fin k))
       /\ cell (Lower b) i = fsub m (fmul sd (Fin k)).
Proof.
  intros Hb. pose proof (@calculate_bbands_ok_window data w k b Hb) as Hw.
  rewrite (@calculate_bbands_window data w k Hw) in Hb.
  apply Ok_inj in Hb. destruct Hb.
  cbn [Upper Lower].
  set (r := mkRolling (col_Close data) (Z.to_nat w) (Z.to_nat w)).
  assert (Lc : length (col_Close data) = length data)
    by (unfold col_Close; apply length_map).
  assert (Lm : length (mean r) = length data)
    by (unfold mean; rewrite length_roll; exact Lc).
  assert (Ls : length (std sqrtQ r) = length data)
    by (unfold std; rewrite length_map, length_roll; exact Lc).
  assert (Lsc : length (map (fun v => fmul v (Fin k)) (std sqrtQ r))
                = length data) by (rewrite length_map; exact Ls).
  split; [rewrite length_zip_with; congruence|].
  split; [rewrite length_zip_with; congruence|].
  intros i Hi. cbv zeta.
  rewrite !cell_zip_with by congruence.
  rewrite cell_map by (rewrite Ls; exact Hi).
  unfold std, mean.
  rewrite cell_map by (rewrite length_roll; simpl; rewrite Lc; exact Hi).
  rewrite !cell_roll by (simpl; rewrite Lc; exact Hi).
  split; reflexivity.
Qed.

Lemma observations_missing (win : Series) :
  In NaN win -> (length (observations win) < length win)%nat.
Proof.
  unfold observations. induction win as [|x l IH]; intros Hin; [contradiction|].
  destruct Hin as [->|Hin].
  - simpl. pose proof (filter_length_le is_finite l). lia.
  - specialize (IH Hin). simpl. destruct (is_finite x); simpl; lia.
Qed.

Lemma agg_mean_missing (minp : nat) (win : Series) :
  In NaN win -> (length win <= minp)%nat -> agg_mean minp win = NaN.
Proof.
  intros Hin Hlen. unfold agg_mean.
  pose proof (observations_missing win Hin) as Hobs.
  replace (minp <=? length (observations win))%nat with false
    by (symmetry; apply Nat.leb_gt; lia).
  reflexivity.
Qed.

(** X7: [calculate_bbands] raises, a [ValueError], exactly when the window
    is negative.  For every other window, every frame and every multiplier,
    the two bands have the length of the frame and are undefined at every
    index [i] with [i + 1 < window] (so a frame with fewer rows than the
    window has no defined band). *)
Theorem bbands_undefined_before_full_window :
  forall (data : DataFrame) (w : Z) (k : Q),
    match calculate_bbands sqrtQ data w k with
    | Raise (ValueError _) => (w < 0)%Z
    | Raise (OtherError _ _) => False
    | Ok b =>
        (0 <= w)%Z
        /\ length (Upper b) = length data
        /\ length (Lower b) = length data
        /\ forall i : nat, (S i < Z.to_nat w)%nat ->
             cell (Upper b) i = NaN /\ cell (Lower b) i = NaN
    end.
Proof.
  intros data w k. destruct (Z_lt_ge_dec w 0) as [Hneg|Hnn].
  - rewrite (@calculate_bbands_negative_window data w k Hneg). exact Hneg.
  - assert (Hw : (0 <= w)%Z) by lia.
    pose proof (@calculate_bbands_window data w k Hw) as Hb.
    rewrite Hb.
    destruct (@calculate_bbands_window_cells data w k _ Hb)
      as [LU [LL Hcells]].
    split; [exact Hw|]. split; [exact LU|]. split; [exact LL|].
    intros i Hi.
    destruct (Nat.lt_ge_cases i (length data)) as [Hin|Hout].
    + destruct (Hcells i Hin) as [HU HL]. rewrite HU, HL.
      assert (Hlen : length (window_at (Z.to_nat w) i (col_Close data))
                     = Nat.min (S i) (Z.to_nat w))
        by (apply length_window_at; unfold col_Close; rewrite length_map;
            exact Hin).
      rewrite agg_mean_short by (rewrite Hlen; lia).
      split; reflexivity.
    + split; apply cell_overflow; lia.
Qed.

(** X8: a missing close at index [j] leaves both bands undefined at every
    index from [j] to [j + window - 1]: a window with a missing cell has too
    few observations. *)
Theorem bbands_missing_close :
  forall (data : DataFrame) (w : Z) (k : Q) (b : BBands) (i j : nat),
    calculate_bbands sqrtQ data w k = Ok b ->
    cell (col_Close data) j = NaN ->
    (j <= i)%nat -> (i < j + Z.to_nat w)%nat ->
    cell (Upper b) i = NaN /\ cell (Lower b) i = NaN.
Proof.
  intros data w k b i j Hb Hj Hlo Hhi.
  destruct (@calculate_bbands_window_cells data w k _ Hb) as [LU [LL Hcells]].
  destruct (Nat.lt_ge_cases i (length data)) as [Hin|Hout].
  - destruct (Hcells i Hin) as [HU HL]. rewrite HU, HL.
    assert (Hic : (i < length (col_Close data))%nat)
      by (unfold col_Close; rewrite length_map; exact Hin).
    assert (Hmem : In NaN (window_at (Z.to_nat w) i (col_Close data))).
    { rewrite <- Hj. apply In_window_at; [exact Hic | lia | exact Hlo]. }
    rewrite agg_mean_missing;
      [split; reflexivity | exact Hmem
       | rewrite length_window_at by exact Hic; lia].
  - split; apply cell_overflow; lia.
Qed.

End BandsAnyWindow.

(** A frame whose second close is missing, window 2: index 2 is undefined. *)
Lemma bbands_missing_close_witness :
  cell (col_Close (frame_of_cells [Fin 1; NaN; Fin 3; Fin 4])) 1 = NaN
  /\ (1 <= 2)%nat /\ (2 < 1 + Z.to_nat 2)%nat
  /\ exists b : BBands,
       calculate_bbands isqrtQ (frame_of_cells [Fin 1; NaN; Fin 3; Fin 4])
                        2%Z 2
       = Ok b
       /\ cell (Upper b) 2 = NaN /\ cell (Lower b) 2 = NaN.
Proof.
  split; [reflexivity|]. split; [lia|]. split; [simpl; lia|].
  eexists. split; [reflexivity|].
  apply (@bbands_missing_close isqrtQ
           (frame_of_cells [Fin 1; NaN; Fin 3; Fin 4]) 2%Z 2 _ 2%nat 1%nat);
    [reflexivity | reflexivity | lia | simpl; lia].
Defined.

(** ** Bollinger bands of flat closes *)

Lemma agg_var_value (win : Series) :
  Forall finite win -> length win = Z.to_nat default_window ->
  let m := Qsum (map qval win) / inject_Z (Z.of_nat (Z.to_nat default_window)) in
  agg_var (Z.to_nat default_window) 1 win
  = Fin (Qsum (map qval (map (dev2_cell m) win))
         / inject_Z (Z.of_nat (Z.to_nat default_window - 1))).
Proof.
  intros Hfin Hlen m. unfold agg_var.
  rewrite (observations_finite Hfin), Hlen.
  simpl andb. cbv iota.
  assert (Hm : fdiv (fsum win) (of_nat (Z.to_nat default_window)) = Fin m).
  { rewrite (fsum_finite Hfin). unfold of_nat, fdiv.
    rewrite (@Qsign_of_nat (Z.to_nat default_window)) by (unfold default_window; lia).
    reflexivity. }
  rewrite Hm. fold (dev2_cell m).
  assert (Hdev : Forall finite (map (dev2_cell m) win)).
  { apply Forall_map. eapply Forall_impl; [|exact Hfin].
    intros [| | |q]; simpl; auto. }
  rewrite (fsum_finite Hdev). unfold of_nat, fdiv.
  rewrite (@Qsign_of_nat (Z.to_nat default_window - 1)) by (unfold default_window; lia).
  reflexivity.
Qed.

Lemma constant_sum (c : Q) (win : Series) :
  Forall (eq (Fin c)) win ->
  Qsum (map qval win) == inject_Z (Z.of_nat (length win)) * c.
Proof.
  induction 1 as [|x l Hx Hl IH].
  - cbn [map Qsum fold_right length Z.of_nat]. change (inject_Z 0) with 0. lra.
  - subst x. cbn [map qval Qsum fold_right length].
    fold (Qsum (map qval l)). rewrite IH.
    rewrite Nat2Z.inj_succ, <- Z.add_1_r, inject_Z_plus.
    change (inject_Z 1) with 1. ring.
Qed.

Lemma constant_dev2_sum (c m : Q) (win : Series) :
  Forall (eq (Fin c)) win -> m == c ->
  Qsum (map qval (map (dev2_cell m) win)) == 0.
Proof.
  intros Hwin Hm. induction Hwin as [|x l Hx Hl IH].
  - cbn [map Qsum fold_right]. lra.
  - subst x. cbn [map dev2_cell fsub fneg fadd fmul qval Qsum fold_right].
    fold (Qsum (map qval (map (dev2_cell m) l))). rewrite IH, Hm. lra.
Qed.

Lemma constant_prices (c : Q) (n : nat) :
  Forall (eq (Fin c)) (prices (repeat c n)).
Proof.
  unfold prices. apply Forall_map, Forall_forall.
  intros x Hx. apply repeat_spec in Hx. subst x. reflexivity.
Qed.

Section FlatBands.

Variable sqrtQ : Q -> Q.
Hypothesis sqrtQ_zero : forall q : Q, q == 0 -> sqrtQ q == 0.

(** X9: on a frame whose closes all equal [c], both bands equal [c] at
    every index from 19 on, for a square root that sends zero to zero. *)
Theorem bbands_of_flat_closes :
  forall (data : DataFrame) (c : Q) (b : BBands) (i : nat),
    col_Close data = prices (repeat c (length data)) ->
    calculate_bbands sqrtQ data default_window default_no_of_std = Ok b ->
    (Z.to_nat default_window - 1 <= i)%nat ->
    (i < length data)%nat ->
    is_value (cell (Upper b) i) c /\ is_value (cell (Lower b) i) c.
Proof.
  intros data c b i Hclose Hb Hlo Hi.
  destruct (@calculate_bbands_window_cells sqrtQ data _ _ _ Hb) as [_ [_ Hcells]].
  destruct (Hcells i Hi) as [HU HL]. rewrite HU, HL. clear HU HL Hcells.
  assert (Hic : (i < length (col_Close data))%nat)
    by (unfold col_Close; rewrite length_map; exact Hi).
  set (win := window_at (Z.to_nat default_window) i (col_Close data)).
  assert (Hlen : length win = Z.to_nat default_window)
    by (unfold win; rewrite length_window_at by exact Hic;
        unfold default_window in *; lia).
  assert (Hconst : Forall (eq (Fin c)) win)
    by (unfold win; apply Forall_window_at; rewrite Hclose;
        apply constant_prices).
  assert (Hfin : Forall finite win)
    by (eapply Forall_impl; [|exact Hconst]; intros v <-; exact I).
  rewrite (agg_mean_finite Hfin)
    by (rewrite Hlen; unfold default_window; lia).
  rewrite (agg_var_value Hfin Hlen). rewrite Hlen.
  set (m := Qsum (map qval win) / inject_Z (Z.of_nat (Z.to_nat default_window))).
  assert (Hm : m == c).
  { unfold m. rewrite (constant_sum Hconst), Hlen.
    unfold default_window. simpl. field. }
  set (v := Qsum (map qval (map (dev2_cell m) win))
            / inject_Z (Z.of_nat (Z.to_nat default_window - 1))).
  assert (Hv : v == 0).
  { unfold v. rewrite (constant_dev2_sum Hconst Hm).
    unfold default_window. simpl. field. }
  unfold fsqrt. rewrite (proj2 (Qsign_Eq v) Hv).
  pose proof (sqrtQ_zero Hv) as Hsd.
  unfold default_no_of_std. simpl. rewrite Hsd, Hm. split; lra.
Qed.

End FlatBands.

Lemma isqrtQ_zero (q : Q) : q == 0 -> isqrtQ q == 0.
Proof.
  intros Hq. unfold isqrtQ.
  assert (H0 : Qfloor (q * 1000000000000) = 0%Z).
  { rewrite (Qfloor_comp (q * 1000000000000) 0) by (rewrite Hq; lra).
    reflexivity. }
  rewrite H0. reflexivity.
Qed.

(** Twenty-five closes of 5, at index 20. *)
Lemma bbands_of_flat_closes_witness :
  (forall q : Q, q == 0 -> isqrtQ q == 0)
  /\ col_Close flat_frame
     = prices (repeat 5 (length flat_frame))
  /\ (Z.to_nat default_window - 1 <= 20)%nat
  /\ (20 < length flat_frame)%nat
  /\ exists b : BBands,
       calculate_bbands isqrtQ flat_frame default_window
                        default_no_of_std = Ok b
       /\ is_value (cell (Upper b) 20) 5 /\ is_value (cell (Lower b) 20) 5.
Proof.
  split; [exact isqrtQ_zero|]. split; [reflexivity|].
  split; [unfold default_window; lia|]. split; [simpl; lia|].
  eexists. split; [reflexivity|].
  apply (@bbands_of_flat_closes isqrtQ isqrtQ_zero flat_frame 5
           _ 20%nat);
    [reflexivity | reflexivity | unfold default_window; lia | simpl; lia].
Defined.

Section AssemblyFacts.

Variable sqrtQ : Q -> Q.
Variable mpf_plot : plot_params -> result unit.

(** X10: for every toggles and frame, [get_indicators] returns normally and
    enters only the indicator functions that are switched on.  Its list is
    the RSI descriptor (when the RSI is on) followed by the two band
    descriptors (when the bands are on), made of the results of the two
    indicator functions; each descriptor has a series of as many cells as
    the frame has rows, and a descriptor of the list is on the lower panel
    exactly when it is the RSI descriptor. *)
Theorem get_indicators_aligned :
  forall (self : StockApp) (data : DataFrame) (log : list event),
  exists (rsi : Series) (bbands : BBands) (addplots : list addplot),
    calculate_rsi (col_Close data) default_period = Ok rsi
    /\ calculate_bbands sqrtQ data default_window default_no_of_std
       = Ok bbands
    /\ get_indicators sqrtQ self data log = (Ok addplots, log ++ entered self)
    /\ addplots
       = (if show_rsi self then [rsi_addplot rsi] else [])
         ++ (if show_bbands self then bbands_addplots bbands else [])
    /\ length addplots
       = ((if show_rsi self then 1 else 0)
          + (if show_bbands self then 2 else 0))%nat
    /\ Forall (fun a => length (ap_data a) = length data) addplots
    /\ (forall a : addplot, In a addplots ->
          (on_lower a = true <-> a = rsi_addplot rsi))
    /\ length (filter on_lower addplots)
       = (if show_rsi self then 1 else 0)%nat.
Proof.
  intros self data log.
  destruct (calculate_rsi_default_ok (col_Close data)) as [rsi Hrsi].
  destruct (calculate_bbands_default_ok sqrtQ data) as [bb Hbb].
  assert (Lr : length rsi = length data).
  { destruct (calculate_rsi_cells Hrsi eq_refl eq_refl) as [H _].
    rewrite H. unfold col_Close. apply length_map. }
  destruct (calculate_bbands_cells Hbb) as [LU [LL _]].
  exists rsi, bb.
  assert (Hlow : forall a : addplot,
             In a (rsi_addplot rsi :: bbands_addplots bb) ->
             (on_lower a = true <-> a = rsi_addplot rsi)).
  { intros a [<-|[<-|[<-|[]]]].
    - split; reflexivity.
    - split; intros H; discriminate H.
    - split; intros H; discriminate H. }
  exists ((if show_rsi self then [rsi_addplot rsi] else [])
          ++ (if show_bbands self then bbands_addplots bb else [])).
  split; [exact Hrsi|]. split; [exact Hbb|]. split.
  { unfold get_indicators, entered, bind, lift, emit, ret.
    destruct (show_rsi self), (show_bbands self);
      rewrite ?Hrsi, ?Hbb; cbv beta iota;
      rewrite <- ?app_assoc; simpl; rewrite ?app_nil_r; reflexivity. }
  split; [reflexivity|].
  destruct (show_rsi self), (show_bbands self); simpl;
    (split; [reflexivity|]);
    (split; [repeat constructor; assumption|]);
    (split; [|reflexivity]);
    intros a Hin; apply Hlow; simpl in *; tauto.
Qed.

(** X11: for every toggles, frame and renderer, [plot_data] calls the
    renderer exactly once, after the canvas is cleared and the indicators
    are computed, with the candle type, the charles style, the volume
    toggle, the list of [get_indicators] and a moving-average entry that is
    exactly the result of [get_mav] (absent when [get_mav] is [None]).  It
    draws and returns when the renderer returns; when the renderer raises,
    it raises the same exception and draws nothing. *)
Theorem plot_data_renders_once :
  forall (self : StockApp) (data : DataFrame),
  exists addplots : list addplot,
    get_indicators sqrtQ self data [ClearCanvas]
    = (Ok addplots, ClearCanvas :: entered self)
    /\ plot_data sqrtQ mpf_plot self data []
       = after_render
           (mpf_plot (mkPlotParams data "candle" "charles" (show_volume self)
                                   addplots true (10, 6)%nat (get_mav self)))
           (ClearCanvas :: entered self
              ++ [MpfPlot (mkPlotParams data "candle" "charles"
                                        (show_volume self) addplots true
                                        (10, 6)%nat (get_mav self))])
    /\ length (filter is_plot (effects (plot_data sqrtQ mpf_plot self data)))
       = 1%nat.
Proof.
  intros self data.
  destruct (plot_data_run sqrtQ mpf_plot self data) as [addplots [Hrun Hplot]].
  exists addplots. split; [exact Hrun|]. split; [exact Hplot|].
  unfold effects. rewrite Hplot. unfold after_render, entered.
  destruct (mpf_plot _) as [[]|e]; simpl;
    destruct (show_rsi self), (show_bbands self); reflexivity.
Qed.

End AssemblyFacts.

(** ** What a cell of an indicator depends on *)

Lemma window_at_ext (s s' : Series) (p i : nat) :
  (i < length s)%nat -> (i < length s')%nat ->
  (forall j, (S i - p <= j)%nat -> (j <= i)%nat -> cell s j = cell s' j) ->
  window_at p i s = window_at p i s'.
Proof.
  intros Hi Hi' Hsame.
  apply (nth_ext _ _ NaN NaN).
  - rewrite !length_window_at by assumption. reflexivity.
  - intros n Hn. rewrite length_window_at in Hn by exact Hi.
    unfold window_at. rewrite !nth_skipn, !nth_firstn.
    replace (S i - p + n <? S i)%nat with true
      by (symmetry; apply Nat.ltb_lt; lia).
    apply Hsame; lia.
Qed.

Lemma cell_diff_from (prev : fval) (t : Series) (j : nat) :
  (j < length t)%nat ->
  cell (diff_from prev t) j
  = fsub (cell t j) (match j with 0%nat => prev | S j' => cell t j' end).
Proof.
  revert prev j. induction t as [|x t IH]; intros prev j Hj; [simpl in Hj; lia|].
  destruct j as [|j]; [reflexivity|].
  unfold cell in *. simpl. rewrite IH by (simpl in Hj; lia).
  destruct j; reflexivity.
Qed.

Lemma cell_diff (s : Series) (j : nat) :
  (j < length s)%nat ->
  cell (diff s) j
  = match j with
    | 0%nat => NaN
    | S j' => fsub (cell s j) (cell s j')
    end.
Proof.
  intros Hj. destruct s as [|x t]; [simpl in Hj; lia|].
  destruct j as [|j]; [reflexivity|].
  unfold diff. change (cell (NaN :: diff_from x t) (S j))
    with (cell (diff_from x t) j).
  rewrite cell_diff_from by (simpl in Hj; lia).
  destruct j; reflexivity.
Qed.

Lemma diff_window_ext (s s' : Series) (p i : nat) (f : fval -> fval) :
  (i < length s)%nat -> (i < length s')%nat ->
  (forall j, (i - p <= j)%nat -> (j <= i)%nat -> cell s j = cell s' j) ->
  window_at p i (map f (diff s)) = window_at p i (map f (diff s')).
Proof.
  intros Hi Hi' Hsame.
  apply window_at_ext; try (rewrite length_map, length_diff; assumption).
  intros j Hlo Hhi.
  rewrite !cell_map by (rewrite length_diff; lia).
  rewrite !cell_diff by lia.
  destruct j as [|j]; [reflexivity|].
  rewrite (Hsame (S j)), (Hsame j) by lia. reflexivity.
Qed.

(** X12: the RSI at index [i] depends on the closes of the indices
    [i - period] to [i] only: two series that agree there have the same RSI
    at [i], whatever their earlier closes. *)
Theorem rsi_depends_on_last_closes :
  forall (s s' r r' : Series) (p : Z) (i : nat),
    calculate_rsi s p = Ok r ->
    calculate_rsi s' p = Ok r' ->
    (i < length s)%nat -> (i < length s')%nat ->
    (forall j, (i - Z.to_nat p <= j)%nat -> (j <= i)%nat ->
               cell s j = cell s' j) ->
    cell r i = cell r' i.
Proof.
  intros s s' r r' p i Hr Hr' Hi Hi' Hsame.
  assert (Hp : (1 <= p)%Z).
  { destruct (Z_le_gt_dec p 0) as [Hlow|Hhigh]; [|lia].
    rewrite (calculate_rsi_period_low s Hlow) in Hr. discriminate. }
  destruct (@rsi_cells_period s r p Hp Hr) as [_ Hc].
  destruct (@rsi_cells_period s' r' p Hp Hr') as [_ Hc'].
  rewrite (Hc i Hi), (Hc' i Hi').
  assert (Hg : window_at (Z.to_nat p) i (rsi_gain s)
               = window_at (Z.to_nat p) i (rsi_gain s')).
  { unfold rsi_gain, rsi_delta, where_. apply diff_window_ext; assumption. }
  assert (Hl : window_at (Z.to_nat p) i (rsi_loss s)
               = window_at (Z.to_nat p) i (rsi_loss s')).
  { unfold rsi_loss, series_neg, rsi_delta, where_. rewrite !map_map.
    apply diff_window_ext; assumption. }
  rewrite Hg, Hl. reflexivity.
Qed.

(** Two series that differ in their first close only, period 2, index 3. *)
Lemma rsi_depends_on_last_closes_witness :
  (3 < length (prices [1; 5; 2; 4; 3]%Q))%nat
  /\ (3 < length (prices [9; 5; 2; 4; 3]%Q))%nat
  /\ (forall j, (3 - Z.to_nat 2 <= j)%nat -> (j <= 3)%nat ->
        cell (prices [1; 5; 2; 4; 3]) j = cell (prices [9; 5; 2; 4; 3]) j)
  /\ exists r r' : Series,
       calculate_rsi (prices [1; 5; 2; 4; 3]) 2%Z = Ok r
       /\ calculate_rsi (prices [9; 5; 2; 4; 3]) 2%Z = Ok r'
       /\ cell r 3 = cell r' 3.
Proof.
  assert (Hs : forall j, (3 - Z.to_nat 2 <= j)%nat -> (j <= 3)%nat ->
                 cell (prices [1; 5; 2; 4; 3]) j
                 = cell (prices [9; 5; 2; 4; 3]) j).
  { intros j H1 H2. destruct j as [|[|[|[|j]]]]; try reflexivity; simpl in *; lia. }
  split; [simpl; lia|]. split; [simpl; lia|]. split; [exact Hs|].
  eexists. eexists. split; [reflexivity|]. split; [reflexivity|].
  apply (@rsi_depends_on_last_closes (prices [1; 5; 2; 4; 3])
           (prices [9; 5; 2; 4; 3]) _ _ 2%Z 3%nat);
    [reflexivity | reflexivity | simpl; lia | simpl; lia | exact Hs].
Defined.

Section BandsLocal.

Variable sqrtQ : Q -> Q.

(** X13: the bands at index [i] depend on the closes of the last [window]
    indices only. *)
Theorem bbands_depend_on_window :
  forall (data data' : DataFrame) (w : Z) (k : Q) (b b' : BBands) (i : nat),
    calculate_bbands sqrtQ data w k = Ok b ->
    calculate_bbands sqrtQ data' w k = Ok b' ->
    (i < length data)%nat -> (i < length data')%nat ->
    (forall j, (S i - Z.to_nat w <= j)%nat -> (j <= i)%nat ->
               cell (col_Close data) j = cell (col_Close data') j) ->
    cell (Upper b) i = cell (Upper b') i
    /\ cell (Lower b) i = cell (Lower b') i.
Proof.
  intros data data' w k b b' i Hb Hb' Hi Hi' Hsame.
  destruct (@calculate_bbands_window_cells sqrtQ data w k b Hb) as [_ [_ Hc]].
  destruct (@calculate_bbands_window_cells sqrtQ data' w k b' Hb') as [_ [_ Hc']].
  destruct (Hc i Hi) as [HU HL]. destruct (Hc' i Hi') as [HU' HL'].
  rewrite HU, HL, HU', HL'.
  assert (Hw : window_at (Z.to_nat w) i (col_Close data)
               = window_at (Z.to_nat w) i (col_Close data')).
  { apply window_at_ext; try exact Hsame;
      unfold col_Close; rewrite length_map; assumption. }
  rewrite Hw. split; reflexivity.
Qed.

End BandsLocal.

(** Two frames that differ in their first close only, window 2, index 3. *)
Lemma bbands_depend_on_window_witness :
  (3 < length (frame_of [1; 5; 2; 4; 3]%Q))%nat
  /\ (3 < length (frame_of [9; 5; 2; 4; 3]%Q))%nat
  /\ (forall j, (4 - Z.to_nat 2 <= j)%nat -> (j <= 3)%nat ->
        cell (col_Close (frame_of [1; 5; 2; 4; 3])) j
        = cell (col_Close (frame_of [9; 5; 2; 4; 3])) j)
  /\ exists b b' : BBands,
       calculate_bbands isqrtQ (frame_of [1; 5; 2; 4; 3]) 2%Z 2 = Ok b
       /\ calculate_bbands isqrtQ (frame_of [9; 5; 2; 4; 3]) 2%Z 2 = Ok b'
       /\ cell (Upper b) 3 = cell (Upper b') 3
       /\ cell (Lower b) 3 = cell (Lower b') 3.
Proof.
  assert (Hs : forall j, (4 - Z.to_nat 2 <= j)%nat -> (j <= 3)%nat ->
                 cell (col_Close (frame_of [1; 5; 2; 4; 3])) j
                 = cell (col_Close (frame_of [9; 5; 2; 4; 3])) j).
  { intros j H1 H2. destruct j as [|[|[|[|j]]]]; try reflexivity; simpl in *; lia. }
  split; [simpl; lia|]. split; [simpl; lia|]. split; [exact Hs|].
  eexists. eexists. split; [reflexivity|]. split; [reflexivity|].
  apply (@bbands_depend_on_window isqrtQ (frame_of [1; 5; 2; 4; 3])
           (frame_of [9; 5; 2; 4; 3]) 2%Z 2 _ _ 3%nat);
    [reflexivity | reflexivity | simpl; lia | simpl; lia | exact Hs].
Defined.

(** ** Where the bands of a window are defined *)

Lemma agg_var_finite_window (w : nat) (win : Series) :
  Forall finite win -> length win = w -> (2 <= w)%nat ->
  exists v, agg_var w 1 win = Fin v.
Proof.
  intros Hfin Hlen Hw. unfold agg_var.
  rewrite (observations_finite Hfin), Hlen.
  rewrite Nat.leb_refl. replace (1 <? w)%nat with true
    by (symmetry; apply Nat.ltb_lt; lia).
  simpl andb. cbv iota.
  set (m := Qsum (map qval win) / inject_Z (Z.of_nat w)).
  assert (Hm : fdiv (fsum win) (of_nat w) = Fin m).
  { rewrite (fsum_finite Hfin). unfold of_nat, fdiv.
    rewrite (@Qsign_of_nat w) by lia. reflexivity. }
  rewrite Hm.
  assert (Hdev : Forall finite
                   (map (fun x => fmul (fsub x (Fin m)) (fsub x (Fin m))) win)).
  { apply Forall_map. eapply Forall_impl; [|exact Hfin].
    intros [| | |q]; simpl; auto. }
  rewrite (fsum_finite Hdev). unfold of_nat, fdiv.
  rewrite (@Qsign_of_nat (w - 1)) by lia.
  eexists. reflexivity.
Qed.

Lemma agg_var_one_observation (minp : nat) (win : Series) :
  (length win <= 1)%nat -> agg_var minp 1 win = NaN.
Proof.
  intros Hlen. unfold agg_var.
  pose proof (length_observations win) as Hobs.
  replace (1 <? length (observations win))%nat with false
    by (symmetry; apply Nat.ltb_ge; lia).
  rewrite andb_false_r. reflexivity.
Qed.

Lemma band_without_deviation (sqrtQ : Q -> Q) (m : fval) (k : Q) :
  fadd m (fmul (fsqrt sqrtQ NaN) (Fin k)) = NaN
  /\ fsub m (fmul (fsqrt sqrtQ NaN) (Fin k)) = NaN.
Proof. destruct m; split; reflexivity. Qed.

Section BandsDefined.

Variable sqrtQ : Q -> Q.

(** X14: on finite closes, for every window, the bands at an index [i] of
    the frame are defined exactly when the window is at least 2 and at most
    [i + 1]; with a window of 0 or 1 they are undefined everywhere (the
    sample deviation needs two observations). *)
Theorem bbands_defined_iff_full_window :
  forall (data : DataFrame) (cs : list Q) (w : Z) (k : Q) (b : BBands)
         (i : nat),
    col_Close data = prices cs ->
    calculate_bbands sqrtQ data w k = Ok b ->
    (i < length data)%nat ->
    if ((2 <=? Z.to_nat w) && (Z.to_nat w <=? S i))%nat
    then exists u l : Q, cell (Upper b) i = Fin u /\ cell (Lower b) i = Fin l
    else cell (Upper b) i = NaN /\ cell (Lower b) i = NaN.
Proof.
  intros data cs w k b i Hclose Hb Hi.
  destruct (@calculate_bbands_window_cells sqrtQ data w k b Hb) as [_ [_ Hc]].
  destruct (Hc i Hi) as [HU HL]. rewrite HU, HL. clear HU HL Hc.
  assert (Hic : (i < length (col_Close data))%nat)
    by (unfold col_Close; rewrite length_map; exact Hi).
  generalize (Z.to_nat w). intros n.
  pose proof (length_window_at n (col_Close data) Hic) as Hlen.
  destruct (2 <=? n)%nat eqn:H2; destruct (n <=? S i)%nat eqn:Hw; simpl andb;
    cbv iota.
  - apply Nat.leb_le in H2. apply Nat.leb_le in Hw.
    assert (Hlen' : length (window_at n i (col_Close data)) = n) by lia.
    assert (Hfin : Forall finite (window_at n i (col_Close data))).
    { apply Forall_window_at. rewrite Hclose. unfold prices.
      apply Forall_map, Forall_forall. intros x _. exact I. }
    rewrite (agg_mean_finite Hfin) by lia.
    destruct (agg_var_finite_window Hfin Hlen' H2) as [v Hv]. rewrite Hv.
    destruct (fsqrt_finite sqrtQ v) as [sd Hsd]. rewrite Hsd.
    eexists. eexists. split; reflexivity.
  - apply Nat.leb_gt in Hw.
    rewrite agg_mean_short by lia. split; reflexivity.
  - apply Nat.leb_gt in H2.
    rewrite agg_var_one_observation by lia.
    apply band_without_deviation.
  - apply Nat.leb_gt in Hw.
    rewrite agg_mean_short by lia. split; reflexivity.
Qed.

End BandsDefined.

(** Three closes, window 2: index 1 is defined. *)
Lemma bbands_defined_iff_full_window_witness :
  col_Close (frame_of [1; 5; 2]) = prices [1; 5; 2]
  /\ (1 < length (frame_of [1; 5; 2]%Q))%nat
  /\ exists b : BBands,
       calculate_bbands isqrtQ (frame_of [1; 5; 2]) 2%Z 2 = Ok b
       /\ exists u l : Q, cell (Upper b) 1 = Fin u /\ cell (Lower b) 1 = Fin l.
Proof.
  split; [reflexivity|]. split; [simpl; lia|].
  eexists. split; [reflexivity|].
  apply (@bbands_defined_iff_full_window isqrtQ (frame_of [1; 5; 2]) [1; 5; 2]
           2%Z 2 _ 1%nat); [reflexivity | reflexivity | simpl; lia].
Defined.
